(** * scripts/last_airbender_sync.py: card rarities synchronised into a sheet

    A shallow embedding of the script and the properties of its column
    addressing, rarity mapping, catalog fetch, row reconciliation and
    orchestration.

    Python values are modelled as follows.
    - [str] is a sequence of Unicode code points ([list N]).
    - [int] is [Z] (unbounded).
    - A [dict] keyed by [str] that is only read with [get] and written with
      item assignment is a [gmap].
    - An exception is a value of [exn]; a function that can raise returns a
      [result].
    - The collaborators (Scryfall over HTTP, the Sheets service, the
      terminal) are scripted: their answers are inputs, and every call made
      to them is recorded as an [Event] in the trace of the computation. *)

From Stdlib Require Import ZArith NArith List Ascii String DecimalString Lia Sorted.
From stdpp Require Import base option list gmap.

Local Open Scope Z_scope.

(** ** Python strings *)

Module Py.

Abbreviation str := (list N).

(** A string literal, as its code points. *)
Definition lit (s : string) : str :=
  List.map N_of_ascii (list_ascii_of_string s).

(** [str.isspace] on one code point: the characters of bidirectional
    type WS, B or S and of category Zs. *)
Definition isspace (c : N) : bool :=
  ((9 <=? c) && (c <=? 13) || (28 <=? c) && (c <=? 32)
   || (c =? 133) || (c =? 160) || (c =? 5760)
   || (8192 <=? c) && (c <=? 8202)
   || (c =? 8232) || (c =? 8233) || (c =? 8239) || (c =? 8287)
   || (c =? 12288))%N.

Fixpoint lstrip (s : str) : str :=
  match s with
  | c :: s' => if isspace c then lstrip s' else s
  | [] => []
  end.

Definition rstrip (s : str) : str := rev (lstrip (rev s)).

(** [s.strip()] *)
Definition strip (s : str) : str := rstrip (lstrip s).

Definition is_upper_AZ (c : N) : bool := ((65 <=? c) && (c <=? 90))%N.
Definition is_lower_az (c : N) : bool := ((97 <=? c) && (c <=? 122))%N.

(** [c.upper()] for one code point.  The table holds every code point
    whose uppercase form consists of the letters A to Z: the ASCII
    letters, sharp s, dotless i, long s and the Latin ligatures
    U+FB00 to U+FB06.  The uppercase form of any other code point contains
    a code point outside A to Z; it is kept as it is here.
    [column_to_index] only tests membership in A to Z, so that its
    outcome is the same; only the column quoted in the message of its
    second error can differ from the real one. *)
Definition upper_char (c : N) : str :=
  if is_lower_az c then [c - 32]%N
  else if (c =? 223)%N then lit "SS"
  else if (c =? 305)%N then lit "I"
  else if (c =? 383)%N then lit "S"
  else if (c =? 64256)%N then lit "FF"
  else if (c =? 64257)%N then lit "FI"
  else if (c =? 64258)%N then lit "FL"
  else if (c =? 64259)%N then lit "FFI"
  else if (c =? 64260)%N then lit "FFL"
  else if (c =? 64261)%N then lit "ST"
  else if (c =? 64262)%N then lit "ST"
  else [c].

(** [s.upper()] *)
Definition upper (s : str) : str := flat_map upper_char s.

(** [c.lower()] for one code point.  The table holds every code point
    whose lowercase form consists of the letters a to z: the ASCII
    letters and the Kelvin sign U+212A.  Any other code point is kept as
    it is (its lowercase form contains a code point outside a to z, and
    the script only looks the lowered text up among ASCII keys). *)
Definition lower_char (c : N) : str :=
  if is_upper_AZ c then [c + 32]%N
  else if (c =? 8490)%N then lit "k"
  else [c].

(** [s.lower()] *)
Definition lower (s : str) : str := flat_map lower_char s.

(** [str(n)] for an [int]. *)
Definition str_of_int (n : Z) : str :=
  lit (NilZero.string_of_int (Z.to_int n)).

(** [ord(c)] and [chr(n)]. *)
Definition ord (c : N) : Z := Z.of_N c.
Definition chr (n : Z) : N := Z.to_N n.

(** Truth value of a string: [not s] holds of the empty string only. *)
Definition not_str (s : str) : bool :=
  match s with [] => true | _ => false end.

End Py.

Import Py.

(** ** Exceptions and results *)

(** The script raises [SheetSyncError] with a message; [get_credentials]
    can also let a [GoogleAuthError] through; [ValueError] is what the
    built-ins [int] and [time.sleep] raise, and [OverflowError] what
    [time.sleep] raises for a wait that it cannot count. *)
Inductive exn : Type :=
| SheetSyncError (msg : str)
| GoogleAuthError (msg : str)
| ValueError
| OverflowError.

Inductive result (A : Type) : Type :=
| Ok (a : A)
| Raise (e : exn).
Arguments Ok {A} a.
Arguments Raise {A} e.

(** ** Column addressing *)

(** The [for char in column] loop of [column_to_index]; [column] is kept
    for the message. *)
Fixpoint column_to_index_for (column chars : str) (index : Z) : result Z :=
  match chars with
  | [] => Ok index
  | char :: chars' =>
      if negb ((65 <=? char) && (char <=? 90))%N
      then Raise (SheetSyncError (lit "Invalid column reference: " ++ column))
      else column_to_index_for column chars'
             (index * 26 + (ord char - ord 65%N + 1))
  end.

Definition column_to_index (column : str) : result Z :=
  let column := upper (strip column) in
  if not_str column
  then Raise (SheetSyncError (lit "Column reference cannot be empty."))
  else column_to_index_for column column 0.

(** The [while index] loop of [index_to_column].  The loop is bounded by
    [fuel]; [None] means that the fuel ran out before [index] reached 0. *)
Fixpoint index_to_column_while (fuel : nat) (index : Z) (chars : str)
  : option str :=
  if index =? 0 then Some chars
  else
    match fuel with
    | O => None
    | S fuel' =>
        let '(index', remainder) := Z.div_eucl (index - 1) 26 in
        index_to_column_while fuel' index' (chars ++ [chr (65 + remainder)])
    end.

(** [index_to_column] run with [fuel] iterations available. *)
Definition index_to_column_fuel (fuel : nat) (index : Z)
  : option (result str) :=
  if index <? 1
  then Some (Raise (SheetSyncError (lit "Column index must be >= 1.")))
  else
    match index_to_column_while fuel index [] with
    | Some chars => Some (Ok (rev chars))
    | None => None
    end.

(** [index_to_column]: the loop divides [index] by 26 at least, so
    [index] iterations are always enough ([index_to_column_total]). *)
Definition index_to_column (index : Z) : option (result str) :=
  index_to_column_fuel (Z.to_nat index) index.

(** ** Card records and rarity codes *)

Definition SCRYFALL_SEARCH_ENDPOINT : str :=
  lit "https://api.scryfall.com/cards/search".

Definition RARITY_MAP : gmap (list N) (list N) :=
  <[lit "mythic" := lit "M"]>
    (<[lit "rare" := lit "R"]>
       (<[lit "uncommon" := lit "U"]>
          (<[lit "common" := lit "C"]> ∅))).

Record CardRecord : Type := mkCardRecord { name : str; rarity : str }.

(** The property [CardRecord.rarity_code]. *)
Definition rarity_code (self : CardRecord) : option str :=
  RARITY_MAP !! lower (rarity self).

Record SyncResult : Type :=
  mkSyncResult { updated : Z; missing_cards : list str }.

(** ** Collaborators, events and effects *)

(** One call to a collaborator, or one line printed. *)
Inductive Event : Type :=
| EvCreateSpreadsheet (title : str)
| EvHttpGet (url : str) (params : option str)
| EvSleep (seconds : Z)
| EvSheetRead (spreadsheet_id range_notation : str)
| EvSheetWrite (spreadsheet_id : str) (data : list (str * str))
| EvPrint (line : str)
| EvPrintErr (line : str).

(** An effectful computation: the events it produced, and how it ended.
    [None] stands for no end at all: the script of answers ran out, or a
    loop ran out of fuel. *)
Definition Eff (A : Type) : Type := (list Event * option (result A))%type.

#[global] Instance Eff_ret : MRet Eff := fun A a => ([], Some (Ok a)).

#[global] Instance Eff_bind : MBind Eff := fun A B f m =>
  match m with
  | (t, Some (Ok a)) => let '(t', r) := f a in (t ++ t', r)
  | (t, Some (Raise e)) => (t, Some (Raise e))
  | (t, None) => (t, None)
  end.

Definition emit (e : Event) : Eff unit := ([e], Some (Ok tt)).
Definition raise {A : Type} (e : exn) : Eff A := ([], Some (Raise e)).
Definition diverge {A : Type} : Eff A := ([], None).

(** A [result], and a result that needs fuel, as computations. *)
Definition lift {A : Type} (r : result A) : Eff A := ([], Some r).
Definition lift_fuel {A : Type} (r : option (result A)) : Eff A := ([], r).

(** [try: m except SheetSyncError as exc: ...]: the value of [m], or the
    message of the [SheetSyncError] it raised. *)
Definition try_except {A : Type} (m : Eff A) : Eff (str + A) :=
  match m with
  | (t, Some (Ok a)) => (t, Some (Ok (inr a)))
  | (t, Some (Raise (SheetSyncError exc))) => (t, Some (Ok (inl exc)))
  | (t, Some (Raise e)) => (t, Some (Raise e))
  | (t, None) => (t, None)
  end.

(** The largest number of seconds, in absolute value, that [time.sleep]
    can count: it counts nanoseconds in 64 bits. *)
Definition SLEEP_LIMIT : Z := 9223372036.

(** [time.sleep(seconds)] for an [int]: the interpreter raises
    [OverflowError] beyond [SLEEP_LIMIT] on either side, then [ValueError]
    for a negative wait, and else hands the wait to the operating system.
    [EvSleep] records that.  Close to [SLEEP_LIMIT] the operating system
    can still refuse a wait that ends beyond its own clock; the model lets
    such a wait through, and the properties that state a wait speak of
    waits of at most [MAX_WAIT]. *)
Definition sleep (seconds : Z) : Eff unit :=
  if (seconds <? - SLEEP_LIMIT) || (SLEEP_LIMIT <? seconds)
  then raise OverflowError
  else if seconds <? 0 then raise ValueError
  else emit (EvSleep seconds).

(** *** The catalog service *)

(** One record of a page, as [card.get("name")] and [card.get("rarity")]
    see it: [None] is a missing key or a null. *)
Record CardJson : Type :=
  mkCardJson { json_name : option str; json_rarity : option str }.

(** [response.json()]: [data] is [payload.get("data", [])]. *)
Record Payload : Type :=
  mkPayload { data : list CardJson; has_more : bool; next_page : option str }.

(** The header [Retry-After] as the built-in [int] reads it: text that
    [int] turns into the integer [seconds], or text for which [int] raises
    [ValueError]. *)
Inductive RetryAfter : Type :=
| IntText (seconds : Z)
| OtherText (raw : str).

Record Response : Type :=
  mkResponse { status_code : Z;
               retry_after : option RetryAfter;
               text : str;
               json : Payload }.

(** What [session.get] does: it returns a response or raises
    [requests.RequestException].  [response.ok] is false when the status
    is from 400 to 599. *)
Inductive HttpAnswer : Type :=
| Answer (response : Response)
| RequestException (exc : str).

(** *** The spreadsheet service *)

(** What [execute()] does: it returns or raises [HttpError]. *)
Inductive SheetAnswer (A : Type) : Type :=
| Returned (a : A)
| HttpError (exc : str).
Arguments Returned {A} a.
Arguments HttpError {A} exc.

(** The answers of the service to the three calls the script can make:
    the identifier of the created spreadsheet, the ["values"] of the range
    read, and the completion of the batch update. *)
Record Service : Type :=
  mkService { create_answer : SheetAnswer str;
              read_answer : SheetAnswer (list (list str));
              write_answer : SheetAnswer unit }.

(** ** The script *)

(** The command line, as [parse_args] returns it. *)
Record Args : Type :=
  mkArgs { sheet_url : option str;
           worksheet : str;
           column : str;
           start_row : Z;
           set_code : str;
           create_title : str;
           dry_run : bool }.

(** The defaults of [parse_args]. *)
Definition default_args : Args :=
  {| sheet_url := None;
     worksheet := lit "Sheet1";
     column := lit "A";
     start_row := 2;
     set_code := lit "tla";
     create_title := lit "The Last Airbender Sync";
     dry_run := false |}.

(** The class [[a-zA-Z0-9-_]] of the pattern of [parse_sheet_id]. *)
Definition is_sheet_id_char (c : N) : bool :=
  is_lower_az c || is_upper_AZ c || ((48 <=? c) && (c <=? 57))%N
  || (c =? 45)%N || (c =? 95)%N.

Fixpoint strip_prefix (prefix s : str) : option str :=
  match prefix, s with
  | [], _ => Some s
  | p :: prefix', c :: s' => if (p =? c)%N then strip_prefix prefix' s' else None
  | _ :: _, [] => None
  end.

Fixpoint take_while (f : N -> bool) (s : str) : str :=
  match s with
  | c :: s' => if f c then c :: take_while f s' else []
  | [] => []
  end.

(** [re.search(r"/spreadsheets/d/([a-zA-Z0-9-_]+)", sheet_url)] and its
    group 1: the leftmost place where the pattern matches, and the longest
    run of the class there. *)
Fixpoint search_sheet_id (sheet_url : str) : option str :=
  match sheet_url with
  | [] => None
  | _ :: rest =>
      match strip_prefix (lit "/spreadsheets/d/") sheet_url with
      | Some tail =>
          match take_while is_sheet_id_char tail with
          | [] => search_sheet_id rest
          | group => Some group
          end
      | None => search_sheet_id rest
      end
  end.

Definition parse_sheet_id (sheet_url : str) : option str :=
  if not_str sheet_url then None else search_sheet_id sheet_url.

Definition create_spreadsheet (service : Service) (title : str)
  : Eff (str * str) :=
  emit (EvCreateSpreadsheet title);;
  match create_answer service with
  | HttpError exc =>
      raise (SheetSyncError (lit "Failed to create spreadsheet: " ++ exc))
  | Returned sheet_id =>
      let url := lit "https://docs.google.com/spreadsheets/d/" ++ sheet_id in
      mret (sheet_id, url)
  end.

(** The body of [for card in payload.get("data", [])]. *)
Definition fetch_scryfall_cards_add (cards : gmap (list N) CardRecord)
    (card : CardJson) : gmap (list N) CardRecord :=
  let name := strip (default [] (json_name card)) in
  match json_rarity card with
  | Some rarity =>
      if not_str name || not_str rarity then cards
      else <[name := mkCardRecord name rarity]> cards
  | None => cards
  end.

(** The [while url] loop of [fetch_scryfall_cards].  Each iteration takes
    the next answer of the service from [answers]. *)
Fixpoint fetch_scryfall_cards_while (answers : list HttpAnswer)
    (url : option str) (params : option str) (retries : Z)
    (cards : gmap (list N) CardRecord) : Eff (gmap (list N) CardRecord) :=
  match url with
  | None => mret cards
  | Some [] => mret cards
  | Some url_text =>
      match answers with
      | [] => diverge
      | answer :: answers' =>
          emit (EvHttpGet url_text
                  (if decide (url_text = SCRYFALL_SEARCH_ENDPOINT)
                   then params else None));;
          match answer with
          | RequestException exc =>
              raise (SheetSyncError (lit "Failed to contact Scryfall: " ++ exc))
          | Answer response =>
              if status_code response =? 429 then
                wait_time ← match retry_after response with
                            | None => mret 2
                            | Some (IntText seconds) => mret seconds
                            | Some (OtherText _) => raise ValueError
                            end;
                sleep wait_time;;
                let retries := retries + 1 in
                if retries >? 5 then
                  raise (SheetSyncError
                           (lit "Exceeded retry attempts due to Scryfall rate limits."))
                else fetch_scryfall_cards_while answers' url params retries cards
              else if (500 <=? status_code response)
                      && (status_code response <? 600) then
                let retries := retries + 1 in
                if retries >? 5 then
                  raise (SheetSyncError
                           (lit "Scryfall returned "
                              ++ str_of_int (status_code response)
                              ++ lit " repeatedly. Aborting."))
                else
                  sleep (2 ^ retries);;
                  fetch_scryfall_cards_while answers' url params retries cards
              else if (400 <=? status_code response)
                      && (status_code response <? 600) then
                raise (SheetSyncError
                         (lit "Scryfall request failed with "
                            ++ str_of_int (status_code response)
                            ++ lit ": " ++ text response))
              else
                let retries := 0 in
                let payload := json response in
                let cards := fold_left fetch_scryfall_cards_add (data payload) cards in
                if has_more payload then
                  fetch_scryfall_cards_while answers' (next_page payload) None
                    retries cards
                else mret cards
          end
      end
  end.

Definition fetch_scryfall_cards (answers : list HttpAnswer) (set_code : str)
  : Eff (gmap (list N) CardRecord) :=
  let params := Some (lit "set:" ++ set_code) in
  fetch_scryfall_cards_while answers (Some SCRYFALL_SEARCH_ENDPOINT) params 0 ∅.

(** The [for index, row in enumerate(values, start=start_row)] loop of
    [read_sheet_rows]. *)
Fixpoint read_sheet_rows_for (values : list (list str)) (index : Z)
    (rows : list (Z * str)) : list (Z * str) :=
  match values with
  | [] => rows
  | [] :: values' => read_sheet_rows_for values' (index + 1) rows
  | (cell :: _) :: values' =>
      read_sheet_rows_for values' (index + 1) (rows ++ [(index, cell)])
  end.

Definition read_sheet_rows (service : Service)
    (spreadsheet_id worksheet column : str) (start_row : Z)
  : Eff (list (Z * str)) :=
  if start_row <? 1 then raise (SheetSyncError (lit "start_row must be >= 1"))
  else
    let range_notation :=
      worksheet ++ lit "!" ++ column ++ str_of_int start_row
        ++ lit ":" ++ column in
    emit (EvSheetRead spreadsheet_id range_notation);;
    match read_answer service with
    | HttpError exc =>
        raise (SheetSyncError (lit "Failed to read sheet values: " ++ exc))
    | Returned values => mret (read_sheet_rows_for values start_row [])
    end.

Definition write_rarities (service : Service)
    (spreadsheet_id worksheet target_column : str)
    (updates : list (Z * str)) : Eff unit :=
  match updates with
  | [] => mret tt
  | _ =>
      let data :=
        List.map (fun '(row_index, rarity_code) =>
                    (worksheet ++ lit "!" ++ target_column
                       ++ str_of_int row_index, rarity_code)) updates in
      emit (EvSheetWrite spreadsheet_id data);;
      match write_answer service with
      | HttpError exc =>
          raise (SheetSyncError (lit "Failed to update sheet values: " ++ exc))
      | Returned _ => mret tt
      end
  end.

(** The [for row_index, card_name in rows] loop of [sync_sheet]. *)
Fixpoint sync_sheet_for (cards : gmap (list N) CardRecord)
    (rows : list (Z * str)) (updates : list (Z * str))
    (missing_cards : list str) : list (Z * str) * list str :=
  match rows with
  | [] => (updates, missing_cards)
  | (row_index, card_name) :: rows' =>
      let normalized_name := strip card_name in
      if not_str normalized_name
      then sync_sheet_for cards rows' updates missing_cards
      else
        match cards !! normalized_name with
        | None => sync_sheet_for cards rows' updates (missing_cards ++ [card_name])
        | Some card =>
            match rarity_code card with
            | None | Some [] =>
                sync_sheet_for cards rows' updates (missing_cards ++ [card_name])
            | Some code =>
                sync_sheet_for cards rows' (updates ++ [(row_index, code)])
                  missing_cards
            end
        end
  end.

(** Lines 311 to 326 of [sync_sheet]: both lists start empty. *)
Definition reconcile (rows : list (Z * str))
    (cards : gmap (list N) CardRecord) : list (Z * str) * list str :=
  sync_sheet_for cards rows [] [].

(** The [for row_index, code in updates] loop of the dry run. *)
Fixpoint sync_sheet_preview (updates : list (Z * str)) : Eff unit :=
  match updates with
  | [] => mret tt
  | (row_index, code) :: updates' =>
      emit (EvPrint (lit "Would update row " ++ str_of_int row_index
                       ++ lit " to " ++ code));;
      sync_sheet_preview updates'
  end.

Definition sync_sheet (spreadsheet_id worksheet name_column : str)
    (start_row : Z) (cards : gmap (list N) CardRecord) (service : Service)
    (dry_run : bool) : Eff SyncResult :=
  rows ← read_sheet_rows service spreadsheet_id worksheet name_column start_row;
  index ← lift (column_to_index name_column);
  target_column ← lift_fuel (index_to_column (index + 1));
  let '(updates, missing_cards) := reconcile rows cards in
  (if dry_run then sync_sheet_preview updates
   else write_rarities service spreadsheet_id worksheet target_column updates);;
  mret (mkSyncResult (Z.of_nat (length updates)) missing_cards).

(** Everything outside the script that a run depends on: what
    [get_credentials] does, the answers of the Sheets service, and the
    answers of Scryfall in the order of the requests. *)
Record World : Type :=
  mkWorld { credentials : result unit;
            service : Service;
            scryfall : list HttpAnswer }.

(** The [for name in result.missing_cards] loop of [main]. *)
Fixpoint main_print_missing (missing_cards : list str) : Eff unit :=
  match missing_cards with
  | [] => mret tt
  | name :: missing_cards' =>
      emit (EvPrint (lit " - " ++ name));;
      main_print_missing missing_cards'
  end.

(** [main]; its value is the exit status. *)
Definition main (world : World) (args : Args) : Eff Z :=
  match credentials world with
  | Raise (SheetSyncError exc) | Raise (GoogleAuthError exc) =>
      emit (EvPrintErr (lit "Credential error: " ++ exc));;
      mret 1
  | Raise e => raise e
  | Ok _ =>
      let service := service world in
      let sheet_id :=
        match sheet_url args with
        | None | Some [] => None
        | Some url => parse_sheet_id url
        end in
      created ←
        match sheet_id with
        | None | Some [] =>
            r ← try_except (create_spreadsheet service (create_title args));
            match r with
            | inl exc => emit (EvPrintErr exc);; mret (inl 1)
            | inr (sheet_id, sheet_url) =>
                emit (EvPrint (lit "Created spreadsheet: " ++ sheet_url));;
                mret (inr sheet_id)
            end
        | Some sheet_id => mret (inr sheet_id)
        end;
      match created with
      | inl status => mret status
      | inr sheet_id =>
          r ← try_except (fetch_scryfall_cards (scryfall world) (set_code args));
          match r with
          | inl exc => emit (EvPrintErr exc);; mret 1
          | inr cards =>
              r ← try_except
                    (sync_sheet sheet_id (worksheet args) (column args)
                       (start_row args) cards service (dry_run args));
              match r with
              | inl exc => emit (EvPrintErr exc);; mret 1
              | inr result =>
                  (match missing_cards result with
                   | [] => mret tt
                   | _ =>
                       emit (EvPrint (lit "The following cards were not found:"));;
                       main_print_missing (missing_cards result)
                   end);;
                  emit (EvPrint (lit "Updated " ++ str_of_int (updated result)
                                   ++ lit " rows."));;
                  mret 0
              end
          end
      end
  end.

(** ** Vocabulary of the properties *)

(** A letter A to Z in either case. *)
Definition is_letter (c : N) : bool := is_upper_AZ c || is_lower_az c.

(** The uppercase form of one ASCII letter. *)
Definition upper_letter (c : N) : N := if is_lower_az c then (c - 32)%N else c.

(** One iteration of the loop of [column_to_index]. *)
Definition column_step (index : Z) (char : N) : Z :=
  index * 26 + (ord char - ord 65%N + 1).

(** The value that the specification gives to a column, written from its
    words and not from the loop: bijective base 26, with A = 1 and no zero
    digit. *)
Fixpoint bijective_base26 (letters : str) : Z :=
  match letters with
  | [] => 0
  | c :: rest =>
      (Z.of_N c - 64) * 26 ^ Z.of_nat (length rest) + bijective_base26 rest
  end.

(** Two code points that are equal or are the two cases of one ASCII
    letter. *)
Definition same_letter (x y : N) : Prop :=
  x = y \/ (is_upper_AZ x = true /\ y = (x + 32)%N)
  \/ (is_upper_AZ y = true /\ x = (y + 32)%N).

(** The catalog of the example of the specification. *)
Definition example_catalog : gmap (list N) CardRecord :=
  <[lit "Aang" := mkCardRecord (lit "Aang") (lit "mythic")]>
    (<[lit "Zuko" := mkCardRecord (lit "Zuko") (lit "common")]> ∅).

(** A computation after the events [trace]. *)
Definition prepend {A : Type} (trace : list Event) (m : Eff A) : Eff A :=
  (trace ++ m.1, m.2).

(** The query that goes with a request to [url]. *)
Definition sent_params (url : str) (params : option str) : option str :=
  if decide (url = SCRYFALL_SEARCH_ENDPOINT) then params else None.

(** A status that is neither a rate limit, nor a server error, nor any
    other failure: [response.ok] holds. *)
Definition success_status (status : Z) : Prop := status < 400 \/ 600 <= status.

(** A successful page that names the page after it. *)
Definition continues (response : Response) (next : str) : Prop :=
  success_status (status_code response)
  /\ has_more (json response) = true
  /\ next_page (json response) = Some next
  /\ next <> [].

(** A successful page with nothing after it. *)
Definition is_last (response : Response) : Prop :=
  success_status (status_code response)
  /\ (has_more (json response) = false
      \/ next_page (json response) = None
      \/ next_page (json response) = Some []).

(** The longest wait that the properties speak of, in seconds: 2^31 - 1,
    some 68 years, far below [SLEEP_LIMIT]. *)
Definition MAX_WAIT : Z := 2147483647.

(** A rate limit answer that asks for [wait] seconds: the status is 429
    and the header [Retry-After] is a number of seconds from 0 to
    [MAX_WAIT], or there is none and [wait] is the default of 2. *)
Definition rate_limited (response : Response) (wait : Z) : Prop :=
  status_code response = 429
  /\ 0 <= wait <= MAX_WAIT
  /\ (retry_after response = None /\ wait = 2
      \/ retry_after response = Some (IntText wait)).

(** The requests and the waits of the retries of one page. *)
Definition retry_trace (url : str) (params : option str) (waits : list Z)
  : list Event :=
  flat_map (fun wait => [EvHttpGet url (sent_params url params); EvSleep wait])
    waits.

(** A page and the rate limit answers that come before it: the answers,
    the waits they ask for, and the page. *)
Record Attempt : Type :=
  mkAttempt { limits : list Response; waits : list Z; page : Response }.

(** The answers of the service for one attempt, in their order. *)
Definition attempt_answers (attempt : Attempt) : list HttpAnswer :=
  List.map Answer (limits attempt) ++ [Answer (page attempt)].

(** An attempt with at most five rate limit answers, each with its wait. *)
Definition retried (attempt : Attempt) : Prop :=
  Forall2 rate_limited (limits attempt) (waits attempt)
  /\ (length (limits attempt) <= 5)%nat.

(** The page requested after the pages of [attempts], and the query that
    goes with it, when the first request is for [url] with [params]. *)
Fixpoint attempts_end (url : str) (params : option str)
    (attempts : list Attempt) : str * option str :=
  match attempts with
  | [] => (url, params)
  | attempt :: attempts' =>
      attempts_end (default [] (next_page (json (page attempt)))) None
        attempts'
  end.

(** The requests and the waits of [attempts]: for each one the retries
    of its page and then the request that its page answers. *)
Fixpoint attempts_trace (url : str) (params : option str)
    (attempts : list Attempt) : list Event :=
  match attempts with
  | [] => []
  | attempt :: attempts' =>
      retry_trace url params (waits attempt)
        ++ [EvHttpGet url (sent_params url params)]
        ++ attempts_trace (default [] (next_page (json (page attempt)))) None
             attempts'
  end.

(** A record that leaves the entry of [key] as it is. *)
Definition leaves (key : str) (card : CardJson) : Prop :=
  strip (default [] (json_name card)) <> key
  \/ json_rarity card = None \/ json_rarity card = Some [].

(** The kinds of events: a batch update of the sheet, a read of the sheet,
    a line printed on the standard output. *)
Definition is_write (e : Event) : bool :=
  match e with EvSheetWrite _ _ => true | _ => false end.

Definition is_read (e : Event) : bool :=
  match e with EvSheetRead _ _ => true | _ => false end.

(** The calls that go over the network. *)
Definition is_network (e : Event) : bool :=
  match e with
  | EvCreateSpreadsheet _ | EvHttpGet _ _ | EvSheetRead _ _
  | EvSheetWrite _ _ => true
  | _ => false
  end.

(** The line the dry run prints for one update. *)
Definition preview_line (update : Z * str) : str :=
  lit "Would update row " ++ str_of_int update.1 ++ lit " to " ++ update.2.

(** The range that [read_sheet_rows] asks for. *)
Definition read_range (worksheet column : str) (start_row : Z) : str :=
  worksheet ++ lit "!" ++ column ++ str_of_int start_row ++ lit ":" ++ column.

Definition is_print (e : Event) : bool :=
  match e with EvPrint _ => true | _ => false end.

(** A run with the default arguments but a start row of 0, in a world where
    every collaborator answers: no sheet is named, so that one is created,
    and the catalog has one page. *)
Definition zero_start_row_args : Args :=
  {| sheet_url := None;
     worksheet := lit "Sheet1";
     column := lit "A";
     start_row := 0;
     set_code := lit "tla";
     create_title := lit "The Last Airbender Sync";
     dry_run := false |}.

Definition answering_world : World :=
  {| credentials := Ok tt;
     service := mkService (Returned (lit "ID1")) (Returned [[lit "Aang"]])
                  (Returned tt);
     scryfall :=
       [Answer (mkResponse 200 None []
                  (mkPayload [mkCardJson (Some (lit "Aang"))
                                (Some (lit "mythic"))] false None))] |}.

(** ** Vocabulary of the further properties *)

(** A server error: a status from 500 to 599. *)
Definition server_error (response : Response) : Prop :=
  500 <= status_code response < 600.

(** The requests and the waits of [count] retries after server errors,
    from a count of [retries]: the wait doubles with every retry. *)
Definition backoff_trace (url : str) (params : option str) (retries : Z)
    (count : nat) : list Event :=
  flat_map (fun k => [EvHttpGet url (sent_params url params);
                      EvSleep (2 ^ (retries + Z.of_nat k))])
    (seq 1 count).

(** An answer that ends the fetch at once, and the message it ends with:
    the request did not go through, or the status is from 400 to 499 and
    is not 429. *)
Definition fails_at_once (answer : HttpAnswer) (msg : str) : Prop :=
  match answer with
  | RequestException exc => msg = lit "Failed to contact Scryfall: " ++ exc
  | Answer response =>
      400 <= status_code response < 500
      /\ status_code response <> 429
      /\ msg = lit "Scryfall request failed with "
                 ++ str_of_int (status_code response)
                 ++ lit ": " ++ text response
  end.

(** The entries of a catalog as the fetch builds it: the key is the name
    of the record, it is not empty and has no white space around it, and
    the rarity is not empty. *)
Definition catalog_keys_stripped (cards : gmap (list N) CardRecord) : Prop :=
  forall key card,
    cards !! key = Some card ->
    name card = key /\ key <> [] /\ strip key = key /\ rarity card <> [].

(** A row whose text is not blank: it is updated or reported. *)
Definition has_name (row : Z * str) : bool := negb (not_str (strip row.2)).

(** The ranges and values of the batch update for [updates]. *)
Definition write_data (worksheet target_column : str)
    (updates : list (Z * str)) : list (str * str) :=
  List.map (fun update =>
              (worksheet ++ lit "!" ++ target_column ++ str_of_int update.1,
               update.2)) updates.

(** Two more kinds of events: the creation of a spreadsheet, and a line
    on the standard error. *)
Definition is_create (e : Event) : bool :=
  match e with EvCreateSpreadsheet _ => true | _ => false end.

Definition is_print_err (e : Event) : bool :=
  match e with EvPrintErr _ => true | _ => false end.

(** The identifier that [main] reads in [--sheet-url], if any. *)
Definition named_sheet (args : Args) : option str :=
  match sheet_url args with
  | None | Some [] => None
  | Some url => parse_sheet_id url
  end.

(** What [main] does to know the spreadsheet: nothing when the URL names
    it, and else the creation of one, with a line that tells its URL or
    the error. *)
Definition main_resolve (world : World) (args : Args)
  : list Event * option str :=
  match named_sheet args with
  | Some (c :: sheet_id) => ([], Some (c :: sheet_id))
  | _ =>
      match create_answer (service world) with
      | Returned sheet_id =>
          ([EvCreateSpreadsheet (create_title args);
            EvPrint (lit "Created spreadsheet: "
                       ++ lit "https://docs.google.com/spreadsheets/d/"
                       ++ sheet_id)],
           Some sheet_id)
      | HttpError exc =>
          ([EvCreateSpreadsheet (create_title args);
            EvPrintErr (lit "Failed to create spreadsheet: " ++ exc)],
           None)
      end
  end.

(** The lines that [main] prints after a run of [sync_sheet] that
    succeeded. *)
Definition report_lines (result : SyncResult) : list Event :=
  match missing_cards result with
  | [] => []
  | _ =>
      EvPrint (lit "The following cards were not found:")
        :: List.map (fun name => EvPrint (lit " - " ++ name))
             (missing_cards result)
  end
  ++ [EvPrint (lit "Updated " ++ str_of_int (updated result) ++ lit " rows.")].

(** [main] from the fetch on, once the spreadsheet is known, after the
    events [resolved]: the events of the fetch, of [sync_sheet] and of the
    report one after the other, and one line on the standard error when a
    step raises [SheetSyncError]. *)
Definition main_after (world : World) (args : Args) (resolved : list Event)
    (sheet_id : str) : Eff Z :=
    let fetch := fetch_scryfall_cards (scryfall world) (set_code args) in
    match fetch.2 with
    | Some (Ok cards) =>
        let sync :=
          sync_sheet sheet_id (worksheet args) (column args)
            (start_row args) cards (service world) (dry_run args) in
        match sync.2 with
        | Some (Ok result) =>
            (resolved ++ fetch.1 ++ sync.1 ++ report_lines result, Some (Ok 0))
        | Some (Raise (SheetSyncError exc)) =>
            (resolved ++ fetch.1 ++ sync.1 ++ [EvPrintErr exc], Some (Ok 1))
        | Some (Raise e) => (resolved ++ fetch.1 ++ sync.1, Some (Raise e))
        | None => (resolved ++ fetch.1 ++ sync.1, None)
        end
    | Some (Raise (SheetSyncError exc)) =>
        (resolved ++ fetch.1 ++ [EvPrintErr exc], Some (Ok 1))
    | Some (Raise e) => (resolved ++ fetch.1, Some (Raise e))
    | None => (resolved ++ fetch.1, None)
    end.

(** A call to the spreadsheet service on an existing sheet. *)
Definition is_sheet_call (e : Event) : bool := is_read e || is_write e.

(** An event of the fetch: a request or a wait. *)
Definition is_fetch_event (e : Event) : bool :=
  match e with EvHttpGet _ _ | EvSleep _ => true | _ => false end.

(** A rate limit answer whose header [Retry-After] cannot be waited for,
    and the exception it ends with: [ValueError] when [int] rejects the
    header, or when the header is a negative integer down to
    [- SLEEP_LIMIT], which [time.sleep] rejects; [OverflowError] when the
    integer is beyond [SLEEP_LIMIT] on either side. *)
Definition bad_retry_after (response : Response) (e : exn) : Prop :=
  status_code response = 429
  /\ ((exists raw, retry_after response = Some (OtherText raw))
        /\ e = ValueError
      \/ (exists seconds,
             retry_after response = Some (IntText seconds)
             /\ - SLEEP_LIMIT <= seconds < 0)
          /\ e = ValueError
      \/ (exists seconds,
             retry_after response = Some (IntText seconds)
             /\ (seconds < - SLEEP_LIMIT \/ SLEEP_LIMIT < seconds))
          /\ e = OverflowError).

(** * Properties *)

(** ** The examples of the specification, evaluated *)

Example column_to_index_Z : column_to_index (lit "Z") = Ok 26.
Proof. reflexivity. Qed.

Example column_to_index_lower_ab : column_to_index (lit "ab") = Ok 28.
Proof. reflexivity. Qed.

Example index_to_column_702 : index_to_column 702 = Some (Ok (lit "ZZ")).
Proof. reflexivity. Qed.

Example index_to_column_703 : index_to_column 703 = Some (Ok (lit "AAA")).
Proof. reflexivity. Qed.

Example parse_sheet_id_url :
  parse_sheet_id (lit "https://docs.google.com/spreadsheets/d/abc-_9/edit") =
    Some (lit "abc-_9").
Proof. reflexivity. Qed.

Example read_sheet_rows_for_skips_empty :
  read_sheet_rows_for [[lit "Aang"]; []; [lit "Zuko"; lit "x"]] 2 [] =
    [(2, lit "Aang"); (4, lit "Zuko")].
Proof. reflexivity. Qed.

(** ** Strings *)

(** Settles every comparison of a code point with a constant, once the
    context bounds the code point. *)
Ltac settle_cmp :=
  repeat match goal with
    | |- context [(?a <=? ?b)%N] =>
        first [ rewrite (proj2 (N.leb_le a b)) by lia
              | rewrite (proj2 (N.leb_gt a b)) by lia ]
    | |- context [(?a =? ?b)%N] =>
        first [ rewrite (proj2 (N.eqb_eq a b)) by lia
              | rewrite (proj2 (N.eqb_neq a b)) by lia ]
    end.

Lemma is_upper_AZ_spec c : is_upper_AZ c = true <-> (65 <= c <= 90)%N.
Proof. unfold is_upper_AZ. rewrite andb_true_iff, !N.leb_le. tauto. Qed.

Lemma is_lower_az_spec c : is_lower_az c = true <-> (97 <= c <= 122)%N.
Proof. unfold is_lower_az. rewrite andb_true_iff, !N.leb_le. tauto. Qed.

Lemma is_letter_spec c :
  is_letter c = true <-> (65 <= c <= 90)%N \/ (97 <= c <= 122)%N.
Proof.
  unfold is_letter. rewrite orb_true_iff, is_upper_AZ_spec, is_lower_az_spec.
  tauto.
Qed.

Lemma letter_not_space c : is_letter c = true -> isspace c = false.
Proof.
  rewrite is_letter_spec. intros H. unfold isspace.
  destruct H; settle_cmp; reflexivity.
Qed.

Lemma lstrip_spaces ws s :
  Forall (fun c => isspace c = true) ws -> lstrip (ws ++ s) = lstrip s.
Proof. induction 1 as [|c ws Hc _ IH]; simpl; [reflexivity|]. now rewrite Hc. Qed.

Lemma lstrip_all_spaces ws :
  Forall (fun c => isspace c = true) ws -> lstrip ws = [].
Proof.
  intros H. rewrite <- (app_nil_r ws). now rewrite lstrip_spaces.
Qed.

Lemma lstrip_head c s : isspace c = false -> lstrip (c :: s) = c :: s.
Proof. intros H. simpl. now rewrite H. Qed.

Lemma strip_all_spaces ws :
  Forall (fun c => isspace c = true) ws -> strip ws = [].
Proof. intros H. unfold strip, rstrip. now rewrite (lstrip_all_spaces ws H). Qed.

(** Stripping removes the white space around a text that neither starts
    nor ends with white space. *)
Lemma strip_surrounded ws1 ws2 s :
  Forall (fun c => isspace c = true) ws1 ->
  Forall (fun c => isspace c = true) ws2 ->
  s <> [] ->
  Forall (fun c => isspace c = false) s ->
  strip (ws1 ++ s ++ ws2) = s.
Proof.
  intros H1 H2 Hne Hs. unfold strip, rstrip.
  rewrite lstrip_spaces by assumption.
  destruct s as [|c s]; [congruence|].
  rewrite <- app_comm_cons, lstrip_head by (now inversion Hs).
  rewrite app_comm_cons, rev_app_distr.
  rewrite lstrip_spaces by (now apply Forall_rev).
  assert (Hr : Forall (fun c => isspace c = false) (rev (c :: s)))
    by (now apply Forall_rev).
  destruct (rev (c :: s)) as [|d r] eqn:E.
  - apply (f_equal (@rev N)) in E. rewrite rev_involutive in E. discriminate.
  - rewrite lstrip_head by (now inversion Hr).
    rewrite <- E. apply rev_involutive.
Qed.

Lemma strip_letters s :
  s <> [] -> Forall (fun c => is_letter c = true) s -> strip s = s.
Proof.
  intros Hne Hs.
  rewrite <- (strip_surrounded [] [] s) at 2; try constructor; try assumption.
  - now rewrite app_nil_r.
  - eapply Forall_impl; [exact Hs|]. apply letter_not_space.
Qed.

Lemma upper_char_letter c :
  is_letter c = true -> upper_char c = [upper_letter c].
Proof.
  rewrite is_letter_spec. intros H. unfold upper_char, upper_letter, is_lower_az.
  destruct H; settle_cmp; reflexivity.
Qed.

Lemma upper_letter_AZ c : is_letter c = true -> is_upper_AZ (upper_letter c) = true.
Proof.
  rewrite is_letter_spec, is_upper_AZ_spec. intros H.
  unfold upper_letter. destruct (is_lower_az c) eqn:E.
  - apply is_lower_az_spec in E. lia.
  - destruct H as [H|H]; [lia|]. apply is_lower_az_spec in H. congruence.
Qed.

Lemma upper_letters s :
  Forall (fun c => is_letter c = true) s -> upper s = List.map upper_letter s.
Proof.
  induction 1 as [|c s Hc _ IH]; [reflexivity|].
  unfold upper in *. simpl. now rewrite IH, upper_char_letter.
Qed.

Lemma upper_letters_AZ s :
  Forall (fun c => is_letter c = true) s ->
  Forall (fun c => is_upper_AZ c = true) (upper s).
Proof.
  intros H. rewrite upper_letters by assumption.
  apply Forall_map. eapply Forall_impl; [exact H|]. apply upper_letter_AZ.
Qed.

(** ** Column addressing *)

Lemma column_to_index_for_AZ column chars index :
  Forall (fun c => is_upper_AZ c = true) chars ->
  column_to_index_for column chars index = Ok (fold_left column_step chars index).
Proof.
  intros H. revert index.
  induction H as [|c chars Hc _ IH]; intros index; simpl; [reflexivity|].
  unfold is_upper_AZ in Hc. rewrite Hc. simpl. apply IH.
Qed.

Lemma column_to_index_for_bad column chars index :
  Exists (fun c => is_upper_AZ c = false) chars ->
  column_to_index_for column chars index =
    Raise (SheetSyncError (lit "Invalid column reference: " ++ column)).
Proof.
  intros H. revert index.
  induction H as [c chars Hc|c chars _ IH]; intros index; simpl.
  - unfold is_upper_AZ in Hc. now rewrite Hc.
  - destruct (negb _); [reflexivity|apply IH].
Qed.

Lemma fold_column_step_base26 chars index :
  fold_left column_step chars index =
    index * 26 ^ Z.of_nat (length chars) + bijective_base26 chars.
Proof.
  revert index. induction chars as [|c chars IH]; intros index.
  - simpl. lia.
  - cbn [fold_left bijective_base26 length]. rewrite IH.
    unfold column_step, ord. rewrite Nat2Z.inj_succ, Z.pow_succ_r by lia.
    change (Z.of_N 65) with 65. ring.
Qed.

Lemma fold_column_step_lower chars :
  Forall (fun c => is_upper_AZ c = true) chars ->
  Z.of_nat (length chars) <= fold_left column_step chars 0.
Proof.
  induction chars as [|c chars IH] using rev_ind; intros H; [simpl; lia|].
  apply Forall_app in H as [H1 H2]. inversion H2 as [|? ? Hc _]; subst.
  apply is_upper_AZ_spec in Hc.
  rewrite fold_left_app, length_app, Nat2Z.inj_add. cbn [fold_left length].
  specialize (IH H1). set (v := fold_left column_step chars 0) in *.
  unfold column_step, ord. lia.
Qed.

(** The loop of [index_to_column] undoes the loop of [column_to_index]. *)
Lemma index_to_column_while_fold chars acc fuel :
  Forall (fun c => is_upper_AZ c = true) chars ->
  (length chars <= fuel)%nat ->
  index_to_column_while fuel (fold_left column_step chars 0) acc =
    Some (acc ++ rev chars).
Proof.
  revert acc fuel.
  induction chars as [|c chars IH] using rev_ind; intros acc fuel H Hfuel.
  - destruct fuel; simpl; now rewrite app_nil_r.
  - apply Forall_app in H as [H1 H2]. inversion H2 as [|? ? Hc _]; subst.
    apply is_upper_AZ_spec in Hc.
    rewrite length_app in Hfuel. simpl in Hfuel.
    destruct fuel as [|fuel]; [lia|].
    pose proof (fold_column_step_lower chars H1) as Hlow.
    rewrite fold_left_app. cbn [fold_left].
    set (v := fold_left column_step chars 0) in *.
    cbn [index_to_column_while].
    assert (Hnz : (column_step v c =? 0) = false)
      by (apply Z.eqb_neq; unfold column_step, ord; lia).
    rewrite Hnz.
    assert (Hq : (column_step v c - 1) / 26 = v)
      by (symmetry; apply (Z.div_unique _ _ _ (Z.of_N c - 65));
          unfold column_step, ord; lia).
    assert (Hr : (column_step v c - 1) mod 26 = Z.of_N c - 65)
      by (symmetry; apply (Z.mod_unique _ _ v);
          unfold column_step, ord; lia).
    unfold Z.div, Z.modulo in Hq, Hr.
    destruct (Z.div_eucl (column_step v c - 1) 26) as [q r].
    simpl in Hq, Hr. subst q r.
    rewrite IH by (assumption || lia).
    rewrite rev_app_distr, <- app_assoc. simpl.
    do 3 f_equal. unfold chr. rewrite <- (N2Z.id c) at 2. f_equal. lia.
Qed.

(** The loop of [index_to_column] ends within [index] iterations. *)
Lemma index_to_column_while_ends fuel index acc :
  0 <= index <= Z.of_nat fuel ->
  exists chars, index_to_column_while fuel index acc = Some chars.
Proof.
  revert index acc. induction fuel as [|fuel IH]; intros index acc H.
  - assert (index = 0) by lia. subst. simpl. eauto.
  - cbn [index_to_column_while].
    destruct (index =? 0) eqn:E; [eauto|]. apply Z.eqb_neq in E.
    pose proof (Z.div_pos (index - 1) 26 ltac:(lia) ltac:(lia)) as Hq0.
    pose proof (Z.div_le_upper_bound (index - 1) 26 (index - 1)
                  ltac:(lia) ltac:(lia)) as Hq1.
    unfold Z.div in Hq0, Hq1.
    destruct (Z.div_eucl (index - 1) 26) as [q r]. simpl in Hq0, Hq1.
    apply IH. lia.
Qed.

(** [index_to_column] always ends: in an error below 1, in a text from 1. *)
Lemma index_to_column_total index :
  (index < 1 /\
   index_to_column index =
     Some (Raise (SheetSyncError (lit "Column index must be >= 1.")))) \/
  (1 <= index /\ exists text, index_to_column index = Some (Ok text)).
Proof.
  unfold index_to_column, index_to_column_fuel.
  destruct (index <? 1) eqn:E.
  - left. apply Z.ltb_lt in E. auto.
  - right. apply Z.ltb_ge in E. split; [assumption|].
    destruct (index_to_column_while_ends (Z.to_nat index) index [])
      as [chars ->]; [lia|]. eauto.
Qed.

Lemma column_to_index_letters c :
  c <> [] -> Forall (fun x => is_letter x = true) c ->
  column_to_index c = Ok (fold_left column_step (upper c) 0).
Proof.
  intros Hne Hc. unfold column_to_index.
  rewrite strip_letters by assumption.
  rewrite column_to_index_for_AZ by now apply upper_letters_AZ.
  rewrite upper_letters by assumption.
  destruct c; [congruence|reflexivity].
Qed.

(** C3: for every non-empty text [c] of letters A to Z in either case,
    [column_to_index c] is an index that [index_to_column] maps back to
    the uppercase form of [c]; "A", "Z" and "AA" are columns 1, 26 and 27,
    and column 27 is "AA". *)
Theorem column_round_trip :
  (forall c : str,
      c <> [] ->
      Forall (fun x => is_letter x = true) c ->
      exists index,
        column_to_index c = Ok index /\
        index_to_column index = Some (Ok (upper c)))
  /\ column_to_index (lit "A") = Ok 1
  /\ column_to_index (lit "Z") = Ok 26
  /\ column_to_index (lit "AA") = Ok 27
  /\ index_to_column 27 = Some (Ok (lit "AA")).
Proof.
  split; [|repeat split; reflexivity].
  intros c Hne Hc. eexists. split; [now apply column_to_index_letters|].
  pose proof (upper_letters_AZ c Hc) as HAZ.
  pose proof (fold_column_step_lower _ HAZ) as Hlow.
  assert (Hlen : (1 <= length (upper c))%nat).
  { rewrite upper_letters, length_map by assumption.
    destruct c; [congruence|simpl; lia]. }
  unfold index_to_column, index_to_column_fuel.
  destruct (Z.ltb_spec (fold_left column_step (upper c) 0) 1) as [Hlt|_]; [lia|].
  rewrite index_to_column_while_fold by (assumption || lia).
  simpl. now rewrite rev_involutive.
Qed.

Lemma column_round_trip_witness :
  exists index,
    column_to_index (lit "bZ") = Ok index /\
    index_to_column index = Some (Ok (upper (lit "bZ"))).
Proof.
  apply (proj1 column_round_trip).
  - discriminate.
  - repeat constructor.
Defined.

(** C10: [column_to_index] strips the white space around its argument
    first: a non-empty text of letters A to Z in either case, surrounded by
    white space, gives the bijective base 26 value of its uppercase form,
    which is what the letters alone give ([" a "] gives 1); a text of
    white space only fails as the empty text does. *)
Theorem column_to_index_strips :
  (forall ws1 letters ws2 : str,
      Forall (fun c => isspace c = true) ws1 ->
      Forall (fun c => isspace c = true) ws2 ->
      letters <> [] ->
      Forall (fun c => is_letter c = true) letters ->
      column_to_index (ws1 ++ letters ++ ws2) =
        Ok (bijective_base26 (upper letters)) /\
      column_to_index (ws1 ++ letters ++ ws2) = column_to_index letters)
  /\ (forall ws : str,
         Forall (fun c => isspace c = true) ws ->
         column_to_index ws =
           Raise (SheetSyncError (lit "Column reference cannot be empty.")) /\
         column_to_index ws = column_to_index [])
  /\ column_to_index (lit " a ") = Ok 1.
Proof.
  split; [|split; [|reflexivity]].
  - intros ws1 letters ws2 H1 H2 Hne Hl.
    assert (E : column_to_index (ws1 ++ letters ++ ws2) = column_to_index letters).
    { unfold column_to_index. rewrite strip_surrounded, strip_letters; try assumption.
      - reflexivity.
      - eapply Forall_impl; [exact Hl|]. apply letter_not_space. }
    split; [|exact E].
    rewrite E, column_to_index_letters, fold_column_step_base26 by assumption.
    f_equal; lia.
  - intros ws H. unfold column_to_index.
    rewrite (strip_all_spaces ws H). split; reflexivity.
Qed.

Lemma column_to_index_strips_witness :
  column_to_index (lit "  " ++ lit "aB" ++ lit " ") =
    Ok (bijective_base26 (upper (lit "aB"))) /\
  column_to_index (lit "  " ++ lit "aB" ++ lit " ") = column_to_index (lit "aB").
Proof.
  apply (proj1 column_to_index_strips).
  - repeat constructor.
  - repeat constructor.
  - discriminate.
  - repeat constructor.
Defined.

(** C7, as the script has it: [column_to_index] raises [SheetSyncError]
    exactly for the texts that, once the white space around them is
    stripped and the rest is put in upper case, are empty or hold a
    character outside A to Z, as [""] and ["A1"] do; [index_to_column]
    raises [SheetSyncError] for every index below 1, as for 0. *)
Theorem column_errors :
  (forall column : str,
      (upper (strip column) = [] \/
       Exists (fun c => is_upper_AZ c = false) (upper (strip column))) <->
      exists msg, column_to_index column = Raise (SheetSyncError msg))
  /\ (forall index : Z,
         index < 1 ->
         index_to_column index =
           Some (Raise (SheetSyncError (lit "Column index must be >= 1."))))
  /\ column_to_index (lit "") =
       Raise (SheetSyncError (lit "Column reference cannot be empty."))
  /\ column_to_index (lit "A1") =
       Raise (SheetSyncError (lit "Invalid column reference: A1"))
  /\ index_to_column 0 =
       Some (Raise (SheetSyncError (lit "Column index must be >= 1."))).
Proof.
  split; [|split; [|repeat split; reflexivity]].
  - intros column. unfold column_to_index.
    set (chars := upper (strip column)). split.
    + intros [E|E].
      * rewrite E. simpl. eauto.
      * destruct chars; [inversion E|]. simpl not_str. cbv iota.
        rewrite column_to_index_for_bad by assumption. eauto.
    + intros [msg H]. destruct chars as [|c chars]; [now left|right].
      simpl not_str in H. cbv iota in H.
      assert (dec : forall x, {is_upper_AZ x = true} + {is_upper_AZ x = false})
        by (intros x; destruct (is_upper_AZ x); auto).
      destruct (Forall_Exists_dec _ _ dec (c :: chars)) as [HF|HE]; [|exact HE].
      rewrite column_to_index_for_AZ in H by assumption. discriminate.
  - intros index H. unfold index_to_column, index_to_column_fuel.
    now rewrite (proj2 (Z.ltb_lt index 1) H).
Qed.

Lemma column_errors_witness :
  index_to_column (-4) =
    Some (Raise (SheetSyncError (lit "Column index must be >= 1."))).
Proof. apply (proj1 (proj2 column_errors)). lia. Defined.

(** C7 as the specification has it does not hold of the script: [" A "]
    holds a space, which is no letter, and is column 1. *)
Lemma column_to_index_accepts_spaces :
  ~ (forall column : str,
        column = [] \/ Exists (fun c => is_letter c = false) column ->
        exists msg, column_to_index column = Raise (SheetSyncError msg)).
Proof.
  intros H. destruct (H (lit " A ")) as [msg Hmsg].
  - right. constructor. reflexivity.
  - vm_compute in Hmsg. discriminate.
Qed.

(** ** Rarity codes *)

Lemma RARITY_MAP_lookup (key : str) :
  RARITY_MAP !! key =
    if decide (key = lit "mythic") then Some (lit "M")
    else if decide (key = lit "rare") then Some (lit "R")
    else if decide (key = lit "uncommon") then Some (lit "U")
    else if decide (key = lit "common") then Some (lit "C")
    else None.
Proof.
  unfold RARITY_MAP. rewrite !lookup_insert, lookup_empty.
  repeat case_decide; congruence.
Qed.

Lemma rarity_code_not_empty self : rarity_code self <> Some [].
Proof.
  unfold rarity_code. rewrite RARITY_MAP_lookup.
  repeat case_decide; discriminate.
Qed.

Lemma lower_char_same_letter x y : same_letter x y -> lower_char x = lower_char y.
Proof.
  intros [->|[[Hx ->]|[Hy ->]]]; [reflexivity| |].
  - apply is_upper_AZ_spec in Hx. unfold lower_char, is_upper_AZ.
    settle_cmp. reflexivity.
  - apply is_upper_AZ_spec in Hy. unfold lower_char, is_upper_AZ.
    settle_cmp. reflexivity.
Qed.

Lemma lower_same_letters a b : Forall2 same_letter a b -> lower a = lower b.
Proof.
  induction 1 as [|x y a b Hxy _ IH]; [reflexivity|].
  unfold lower in *. simpl. now rewrite IH, (lower_char_same_letter x y).
Qed.

(** C8: the code of a rarity text is that of its lowercase form in the
    table mythic M, rare R, uncommon U, common C, and there is none when
    the lowercase form is not in the table; two texts that differ in the
    case of their letters only have the same code; "Rare" and "rare" have
    the code R and "special" has none. *)
Theorem rarity_code_table :
  (forall self : CardRecord,
      rarity_code self =
        if decide (lower (rarity self) = lit "mythic") then Some (lit "M")
        else if decide (lower (rarity self) = lit "rare") then Some (lit "R")
        else if decide (lower (rarity self) = lit "uncommon") then Some (lit "U")
        else if decide (lower (rarity self) = lit "common") then Some (lit "C")
        else None)
  /\ (forall a b : CardRecord,
         Forall2 same_letter (rarity a) (rarity b) ->
         rarity_code a = rarity_code b)
  /\ rarity_code (mkCardRecord (lit "x") (lit "Rare")) = Some (lit "R")
  /\ rarity_code (mkCardRecord (lit "x") (lit "rare")) = Some (lit "R")
  /\ rarity_code (mkCardRecord (lit "x") (lit "special")) = None.
Proof.
  split; [|split; [|repeat split; reflexivity]].
  - intros self. unfold rarity_code. apply RARITY_MAP_lookup.
  - intros a b H. unfold rarity_code. now rewrite (lower_same_letters _ _ H).
Qed.

Lemma rarity_code_table_witness :
  rarity_code (mkCardRecord (lit "x") (lit "MyThIc")) =
    rarity_code (mkCardRecord (lit "y") (lit "mythic")).
Proof.
  apply (proj1 (proj2 rarity_code_table)). cbv -[same_letter].
  repeat (apply List.Forall2_cons;
          [first [ left; reflexivity
                 | right; left; split; reflexivity
                 | right; right; split; reflexivity ]|]).
  apply List.Forall2_nil.
Defined.

(** ** Reconciliation *)

Lemma sync_sheet_for_app cards rows rows' updates missing :
  sync_sheet_for cards (rows ++ rows') updates missing =
    let '(updates', missing') := sync_sheet_for cards rows updates missing in
    sync_sheet_for cards rows' updates' missing'.
Proof.
  revert updates missing.
  induction rows as [|[row_index card_name] rows IH]; intros updates missing.
  - simpl. now destruct (sync_sheet_for cards rows' updates missing).
  - simpl. destruct (not_str (strip card_name)); [apply IH|].
    destruct (cards !! strip card_name) as [card|]; [|apply IH].
    destruct (rarity_code card) as [[|c code]|]; apply IH.
Qed.

Lemma reconcile_snoc rows row cards :
  reconcile (rows ++ [row]) cards =
    sync_sheet_for cards [row] (reconcile rows cards).1 (reconcile rows cards).2.
Proof.
  unfold reconcile. rewrite sync_sheet_for_app.
  now destruct (sync_sheet_for cards rows [] []).
Qed.

(** C1: rows are reconciled in their order.  A row whose stripped text is
    empty adds nothing; a row whose stripped text is not in the catalog, or
    is there with a rarity that has no code, adds its text as it was read
    to the missing names; any other row adds its index and code to the
    updates.  On the rows (2, Aang), (3, empty), (4, Unknown Card),
    (5, Zuko) with Aang mythic and Zuko common, the updates are (2, M),
    (5, C) and Unknown Card is missing. *)
Theorem reconcile_rows :
  (forall cards, reconcile [] cards = ([], []))
  /\ (forall rows row_index card_name cards,
         strip card_name = [] ->
         reconcile (rows ++ [(row_index, card_name)]) cards =
           reconcile rows cards)
  /\ (forall rows row_index card_name cards,
         strip card_name <> [] ->
         cards !! strip card_name = None \/
         (exists card, cards !! strip card_name = Some card /\
                       rarity_code card = None) ->
         reconcile (rows ++ [(row_index, card_name)]) cards =
           ((reconcile rows cards).1, (reconcile rows cards).2 ++ [card_name]))
  /\ (forall rows row_index card_name cards card code,
         strip card_name <> [] ->
         cards !! strip card_name = Some card ->
         rarity_code card = Some code ->
         reconcile (rows ++ [(row_index, card_name)]) cards =
           ((reconcile rows cards).1 ++ [(row_index, code)],
            (reconcile rows cards).2))
  /\ reconcile [(2, lit "Aang"); (3, lit ""); (4, lit "Unknown Card");
                (5, lit "Zuko")] example_catalog =
       ([(2, lit "M"); (5, lit "C")], [lit "Unknown Card"]).
Proof.
  split; [reflexivity|]. split; [|split; [|split]].
  - intros rows row_index card_name cards H.
    rewrite reconcile_snoc. simpl. rewrite H. simpl.
    now destruct (reconcile rows cards).
  - intros rows row_index card_name cards Hne H.
    rewrite reconcile_snoc. simpl.
    destruct (strip card_name) as [|c s] eqn:E; [congruence|]. simpl.
    destruct H as [->|(card & -> & ->)]; reflexivity.
  - intros rows row_index card_name cards card code Hne Hcard Hcode.
    rewrite reconcile_snoc. simpl.
    destruct (strip card_name) as [|c s] eqn:E; [congruence|]. simpl.
    rewrite Hcard, Hcode.
    destruct code; [now destruct (rarity_code_not_empty card)|reflexivity].
  - vm_compute. reflexivity.
Qed.

Lemma reconcile_rows_witness :
  reconcile ([(2, lit "Aang")] ++ [(3, lit " Zuko ")]) example_catalog =
    ((reconcile [(2, lit "Aang")] example_catalog).1 ++ [(3, lit "C")],
     (reconcile [(2, lit "Aang")] example_catalog).2).
Proof.
  apply (proj1 (proj2 (proj2 (proj2 reconcile_rows)))
           [(2, lit "Aang")] 3 (lit " Zuko ") example_catalog
           (mkCardRecord (lit "Zuko") (lit "common")) (lit "C")).
  - vm_compute. discriminate.
  - vm_compute. reflexivity.
  - vm_compute. reflexivity.
Defined.

(** What one row alone adds to the updates and to the missing names. *)
Lemma reconcile_row_cases cards row :
  reconcile [row] cards = ([], []) \/
  reconcile [row] cards = ([], [row.2]) \/
  exists code, reconcile [row] cards = ([(row.1, code)], []).
Proof.
  destruct row as [row_index card_name]. unfold reconcile. simpl.
  destruct (not_str (strip card_name)); [now left|].
  destruct (cards !! strip card_name) as [card|]; [|now right; left].
  destruct (rarity_code card) as [[|c code]|]; [now right; left| |now right; left].
  right; right. eauto.
Qed.

Lemma sync_sheet_for_cons cards row rows updates missing :
  sync_sheet_for cards (row :: rows) updates missing =
    sync_sheet_for cards rows (updates ++ (reconcile [row] cards).1)
      (missing ++ (reconcile [row] cards).2).
Proof.
  destruct row as [row_index card_name]. unfold reconcile. simpl.
  destruct (not_str (strip card_name)); [now rewrite !app_nil_r|].
  destruct (cards !! strip card_name) as [card|]; [|now rewrite !app_nil_r].
  destruct (rarity_code card) as [[|c code]|]; simpl; now rewrite !app_nil_r.
Qed.

Lemma sync_sheet_for_flat_map cards rows updates missing :
  sync_sheet_for cards rows updates missing =
    (updates ++ flat_map (fun row => (reconcile [row] cards).1) rows,
     missing ++ flat_map (fun row => (reconcile [row] cards).2) rows).
Proof.
  revert updates missing. induction rows as [|row rows IH]; intros updates missing.
  - simpl. now rewrite !app_nil_r.
  - rewrite sync_sheet_for_cons, IH. simpl. now rewrite !app_assoc.
Qed.

(** C6: the updates are what the rows add one by one, in the order of the
    rows, and so are the missing names; a row adds at most one entry in
    all, an update with its own index or its own text as a missing name;
    the indices of the updates and the missing names are sublists of the
    indices and of the texts of the rows. *)
Theorem reconcile_order :
  forall (rows : list (Z * str)) (cards : gmap (list N) CardRecord),
    reconcile rows cards =
      (flat_map (fun row => (reconcile [row] cards).1) rows,
       flat_map (fun row => (reconcile [row] cards).2) rows)
    /\ (forall row : Z * str,
           (length (reconcile [row] cards).1
            + length (reconcile [row] cards).2 <= 1)%nat
           /\ Forall (fun update => update.1 = row.1) (reconcile [row] cards).1
           /\ Forall (fun missing => missing = row.2) (reconcile [row] cards).2)
    /\ sublist (List.map fst (reconcile rows cards).1) (List.map fst rows)
    /\ sublist (reconcile rows cards).2 (List.map snd rows).
Proof.
  intros rows cards.
  assert (E : reconcile rows cards =
                (flat_map (fun row => (reconcile [row] cards).1) rows,
                 flat_map (fun row => (reconcile [row] cards).2) rows))
    by (unfold reconcile at 1; apply sync_sheet_for_flat_map).
  split; [exact E|]. split.
  - intros row.
    destruct (reconcile_row_cases cards row) as [->|[->|[code ->]]]; simpl;
      repeat split; repeat constructor.
  - rewrite E. simpl. clear E. split.
    + induction rows as [|row rows IH]; simpl; [constructor|].
      rewrite map_app.
      destruct (reconcile_row_cases cards row) as [->|[->|[code ->]]]; simpl;
        now constructor.
    + induction rows as [|row rows IH]; simpl; [constructor|].
      destruct (reconcile_row_cases cards row) as [->|[->|[code ->]]]; simpl;
        now constructor.
Qed.

(** ** The catalog fetch *)

(** [time.sleep] accepts the waits from 0 to [SLEEP_LIMIT]. *)
Lemma sleep_accepts seconds :
  0 <= seconds <= SLEEP_LIMIT -> sleep seconds = emit (EvSleep seconds).
Proof.
  intros H. unfold sleep.
  rewrite (proj2 (Z.ltb_ge seconds (- SLEEP_LIMIT))),
    (proj2 (Z.ltb_ge SLEEP_LIMIT seconds)), (proj2 (Z.ltb_ge seconds 0));
    unfold SLEEP_LIMIT in *; (reflexivity || lia).
Qed.

Lemma prepend_nil {A} (m : Eff A) : prepend [] m = m.
Proof. now destruct m. Qed.

Lemma prepend_app {A} t1 t2 (m : Eff A) :
  prepend (t1 ++ t2) m = prepend t1 (prepend t2 m).
Proof. unfold prepend. simpl. now rewrite app_assoc. Qed.

Lemma fetch_while_rate_limited url params retries cards response wait rest :
  url <> [] ->
  rate_limited response wait ->
  fetch_scryfall_cards_while (Answer response :: rest) (Some url) params
    retries cards =
  prepend [EvHttpGet url (sent_params url params); EvSleep wait]
    (if retries + 1 >? 5
     then raise (SheetSyncError
                   (lit "Exceeded retry attempts due to Scryfall rate limits."))
     else fetch_scryfall_cards_while rest (Some url) params (retries + 1) cards).
Proof.
  intros Hurl (Hs & Hw & Hh). destruct url as [|c url]; [congruence|].
  cbn [fetch_scryfall_cards_while]. rewrite Hs. cbn [Z.eqb Pos.eqb].
  assert (Hsleep : sleep wait = emit (EvSleep wait))
    by (apply sleep_accepts; unfold MAX_WAIT, SLEEP_LIMIT in *; lia).
  destruct Hh as [[Hh Hd]|Hh]; rewrite Hh; [subst wait|].
  - destruct (retries + 1 >? 5);
      [reflexivity|].
    now destruct (fetch_scryfall_cards_while rest _ params (retries + 1) cards)
      as [t [[a|e]|]].
  - unfold mbind at 2. unfold Eff_bind at 2. unfold mret, Eff_ret.
    rewrite Hsleep.
    destruct (retries + 1 >? 5); [reflexivity|].
    now destruct (fetch_scryfall_cards_while rest _ params (retries + 1) cards)
      as [t [[a|e]|]].
Qed.

Lemma fetch_while_success url params retries cards response rest :
  url <> [] ->
  success_status (status_code response) ->
  fetch_scryfall_cards_while (Answer response :: rest) (Some url) params
    retries cards =
  prepend [EvHttpGet url (sent_params url params)]
    (let cards' :=
       fold_left fetch_scryfall_cards_add (data (json response)) cards in
     if has_more (json response)
     then fetch_scryfall_cards_while rest (next_page (json response)) None 0 cards'
     else mret cards').
Proof.
  intros Hurl Hs. destruct url as [|c url]; [congruence|].
  cbn [fetch_scryfall_cards_while].
  assert (H429 : (status_code response =? 429) = false)
    by (apply Z.eqb_neq; unfold success_status in Hs; lia).
  assert (H5 : (500 <=? status_code response) && (status_code response <? 600)
               = false).
  { apply andb_false_iff. rewrite Z.leb_gt, Z.ltb_ge.
    unfold success_status in Hs. lia. }
  assert (H4 : (400 <=? status_code response) && (status_code response <? 600)
               = false).
  { apply andb_false_iff. rewrite Z.leb_gt, Z.ltb_ge.
    unfold success_status in Hs. lia. }
  rewrite H429, H5, H4. cbv zeta.
  destruct (has_more (json response)); [|reflexivity].
  now destruct (fetch_scryfall_cards_while rest _ None 0 _) as [t [[a|e]|]].
Qed.

Lemma fetch_while_retries url params retries cards limits waits rest :
  url <> [] ->
  Forall2 rate_limited limits waits ->
  retries + Z.of_nat (length limits) <= 5 ->
  fetch_scryfall_cards_while (List.map Answer limits ++ rest) (Some url)
    params retries cards =
  prepend (retry_trace url params waits)
    (fetch_scryfall_cards_while rest (Some url) params
       (retries + Z.of_nat (length limits)) cards).
Proof.
  intros Hurl H. revert retries.
  induction H as [|response wait limits waits Hr _ IH]; intros retries Hle.
  - simpl. now rewrite Z.add_0_r, prepend_nil.
  - cbn [List.map app length] in *.
    rewrite (fetch_while_rate_limited _ _ _ _ _ wait) by assumption.
    destruct (Z.gtb_spec (retries + 1) 5) as [Hgt|_]; [lia|].
    rewrite IH by lia.
    change (retry_trace url params (wait :: waits))
      with ([EvHttpGet url (sent_params url params); EvSleep wait]
              ++ retry_trace url params waits).
    rewrite prepend_app. do 3 f_equal. lia.
Qed.

Lemma fetch_while_sixth_rate_limit url params retries cards limits waits rest :
  url <> [] ->
  Forall2 rate_limited limits waits ->
  retries + Z.of_nat (length limits) = 6 ->
  limits <> [] ->
  fetch_scryfall_cards_while (List.map Answer limits ++ rest) (Some url)
    params retries cards =
  (retry_trace url params waits,
   Some (Raise (SheetSyncError
                  (lit "Exceeded retry attempts due to Scryfall rate limits.")))).
Proof.
  intros Hurl H Hsix Hne.
  destruct (exists_last Hne) as (front & response & ->).
  apply Forall2_app_inv_l in H as (waits1 & waits2 & H1 & H2 & ->).
  inversion H2 as [|? wait ? ? Hr Hnil]; subst. inversion Hnil; subst.
  rewrite length_app in Hsix. simpl in Hsix.
  rewrite map_app, <- app_assoc. simpl.
  rewrite (fetch_while_retries _ _ _ _ front waits1) by (assumption || lia).
  rewrite (fetch_while_rate_limited _ _ _ _ _ wait) by assumption.
  destruct (Z.gtb_spec (retries + Z.of_nat (length front) + 1) 5) as [_|Hle];
    [|lia].
  unfold prepend, retry_trace. simpl. rewrite flat_map_app. reflexivity.
Qed.


(** The pages of attempts that each name the page after them are all
    read, whatever rate limits come before each of them. *)
Lemma fetch_while_attempts attempts rest url params cards :
  url <> [] ->
  Forall (fun attempt =>
            retried attempt /\ exists next, continues (page attempt) next)
    attempts ->
  (attempts_end url params attempts).1 <> []
  /\ fetch_scryfall_cards_while (flat_map attempt_answers attempts ++ rest)
       (Some url) params 0 cards =
     prepend (attempts_trace url params attempts)
       (fetch_scryfall_cards_while rest
          (Some (attempts_end url params attempts).1)
          (attempts_end url params attempts).2 0
          (fold_left fetch_scryfall_cards_add
             (flat_map (fun attempt => data (json (page attempt))) attempts)
             cards)).
Proof.
  intros Hurl H. revert url params cards Hurl.
  induction H as [|attempt attempts
                    ([Hlimits Hfive] & next & Hs & Hmore & Hnext & Hne) _ IH];
    intros url params cards Hurl.
  - split; [exact Hurl|]. simpl. now rewrite prepend_nil.
  - cbn [attempts_end attempts_trace flat_map]. rewrite Hnext. cbn [default].
    destruct (IH next None
                (fold_left fetch_scryfall_cards_add
                   (data (json (page attempt))) cards) Hne) as [Hend Hrun].
    split; [exact Hend|].
    unfold attempt_answers at 1. rewrite <- !app_assoc. cbn [app].
    rewrite (fetch_while_retries _ _ _ _ _ (waits attempt))
      by (assumption || lia).
    rewrite fetch_while_success by assumption. cbv zeta.
    rewrite Hmore, Hnext, Hrun, fold_left_app, !prepend_app.
    reflexivity.
Qed.




Lemma fetch_add_skipped cards card :
  strip (default [] (json_name card)) = []
  \/ json_rarity card = None \/ json_rarity card = Some [] ->
  fetch_scryfall_cards_add cards card = cards.
Proof.
  unfold fetch_scryfall_cards_add.
  intros [H|[H|H]]; rewrite H; [|reflexivity|].
  - now destruct (json_rarity card).
  - now rewrite orb_true_r.
Qed.

Lemma fetch_add_kept cards name rarity :
  strip name <> [] -> rarity <> [] ->
  fetch_scryfall_cards_add cards (mkCardJson (Some name) (Some rarity)) =
    <[strip name := mkCardRecord (strip name) rarity]> cards.
Proof.
  intros Hn Hr. unfold fetch_scryfall_cards_add. simpl.
  destruct (strip name); [congruence|]. now destruct rarity.
Qed.

Lemma fetch_add_leaves key cards card :
  leaves key card -> fetch_scryfall_cards_add cards card !! key = cards !! key.
Proof.
  intros [H|H]; [|now rewrite fetch_add_skipped by auto].
  unfold fetch_scryfall_cards_add.
  destruct (json_rarity card) as [rarity|]; [|reflexivity].
  destruct (_ || _); [reflexivity|]. now apply lookup_insert_ne.
Qed.

Lemma fetch_fold_leaves key records cards :
  Forall (leaves key) records ->
  fold_left fetch_scryfall_cards_add records cards !! key = cards !! key.
Proof.
  intros H. revert cards.
  induction H as [|card records Hc _ IH]; intros cards; [reflexivity|].
  simpl. now rewrite IH, fetch_add_leaves.
Qed.

Lemma fetch_while_pages pages last rest url params retries cards :
  url <> [] ->
  Forall (fun response => exists next, continues response next) pages ->
  is_last last ->
  fetch_scryfall_cards_while (List.map Answer (pages ++ [last]) ++ rest)
    (Some url) params retries cards =
  (EvHttpGet url (sent_params url params)
     :: List.map (fun response =>
                    EvHttpGet (default [] (next_page (json response))) None)
          pages,
   Some (Ok (fold_left fetch_scryfall_cards_add
               (flat_map (fun response => data (json response)) (pages ++ [last]))
               cards))).
Proof.
  intros Hurl Hpages (Hs & Hlast). revert url params retries cards Hurl.
  induction Hpages as [|page pages (next & Hs' & Hmore & Hnext & Hne) _ IH];
    intros url params retries cards Hurl.
  - cbn [List.map app flat_map]. rewrite fetch_while_success by assumption.
    cbv zeta. rewrite app_nil_r.
    destruct (has_more (json last)); [|reflexivity].
    destruct Hlast as [H|[->| ->]]; [discriminate| |]; now destruct rest.
  - cbn [List.map app flat_map].
    rewrite fetch_while_success by assumption. cbv zeta.
    rewrite Hmore, Hnext, IH by assumption.
    unfold prepend. simpl. rewrite fold_left_app.
    do 3 f_equal. unfold sent_params. now case_decide.
Qed.

Lemma fetch_while_last url params retries cards last rest :
  url <> [] ->
  is_last last ->
  fetch_scryfall_cards_while (Answer last :: rest) (Some url) params retries
    cards =
  ([EvHttpGet url (sent_params url params)],
   Some (Ok (fold_left fetch_scryfall_cards_add (data (json last)) cards))).
Proof.
  intros Hurl Hlast.
  pose proof (fetch_while_pages [] last rest url params retries cards Hurl
                (List.Forall_nil _) Hlast) as H.
  cbn [app List.map flat_map] in H. now rewrite app_nil_r in H.
Qed.

(** C5: when every page but the last is a success that names the page
    after it, the fetcher requests the search endpoint with the query of the
    set and then each named page in turn, and returns the records of all
    the pages folded, in their order, into one mapping from names to
    entries.  In that folding a record whose stripped name is empty or
    whose rarity is absent or empty changes nothing, and the entry of a
    name is that of the last record kept under it. *)
Theorem fetch_aggregates_pages :
  forall (set_code : str) (pages : list Response) (last : Response)
         (rest : list HttpAnswer),
    Forall (fun response => exists next, continues response next) pages ->
    is_last last ->
    fetch_scryfall_cards (List.map Answer (pages ++ [last]) ++ rest) set_code =
      (EvHttpGet SCRYFALL_SEARCH_ENDPOINT (Some (lit "set:" ++ set_code))
         :: List.map (fun response =>
                        EvHttpGet (default [] (next_page (json response))) None)
              pages,
       Some (Ok (fold_left fetch_scryfall_cards_add
                   (flat_map (fun response => data (json response))
                      (pages ++ [last])) ∅)))
    /\ (forall cards card,
           strip (default [] (json_name card)) = []
           \/ json_rarity card = None \/ json_rarity card = Some [] ->
           fetch_scryfall_cards_add cards card = cards)
    /\ (forall cards earlier later name rarity,
           strip name <> [] ->
           rarity <> [] ->
           Forall (leaves (strip name)) later ->
           fold_left fetch_scryfall_cards_add
             (earlier ++ mkCardJson (Some name) (Some rarity) :: later) cards
             !! strip name =
           Some (mkCardRecord (strip name) rarity)).
Proof.
  intros set_code pages last rest Hpages Hlast. split; [|split].
  - unfold fetch_scryfall_cards.
    rewrite fetch_while_pages by (assumption || discriminate).
    unfold sent_params. now case_decide.
  - apply fetch_add_skipped.
  - intros cards earlier later name rarity Hn Hr Hlater.
    rewrite fold_left_app. simpl.
    rewrite fetch_fold_leaves by assumption.
    rewrite fetch_add_kept by assumption. apply lookup_insert_eq.
Qed.

Lemma fetch_aggregates_pages_witness :
  fetch_scryfall_cards
    (List.map Answer
       ([mkResponse 200 None []
           (mkPayload [mkCardJson (Some (lit "Aang")) (Some (lit "mythic"));
                       mkCardJson (Some (lit "")) (Some (lit "rare"))]
              true (Some (lit "https://api.scryfall.com/cards/search?page=2")))]
          ++ [mkResponse 200 None []
                (mkPayload [mkCardJson (Some (lit "Aang")) (Some (lit "rare"));
                            mkCardJson (Some (lit "Zuko")) None]
                   false None)])
       ++ [])
    (lit "tla") =
  ([EvHttpGet SCRYFALL_SEARCH_ENDPOINT (Some (lit "set:tla"));
    EvHttpGet (lit "https://api.scryfall.com/cards/search?page=2") None],
   Some (Ok (<[lit "Aang" := mkCardRecord (lit "Aang") (lit "rare")]> ∅))).
Proof.
  refine (proj1 (fetch_aggregates_pages (lit "tla") _ _ [] _ _)).
  - constructor; [|constructor].
    exists (lit "https://api.scryfall.com/cards/search?page=2").
    unfold continues, success_status. simpl.
    repeat split; [lia|discriminate].
  - unfold is_last, success_status. simpl. split; [lia|now left].
Defined.

(** ** Traces *)

Lemma Forall_bind {A B} (P : Event -> Prop) (m : Eff A) (f : A -> Eff B) :
  Forall P m.1 -> (forall a, Forall P (f a).1) -> Forall P (m ≫= f).1.
Proof.
  destruct m as [t [[a|e]|]]; intros Ht Hf; try exact Ht.
  specialize (Hf a). unfold mbind, Eff_bind. destruct (f a) as [t' r].
  simpl in *. now apply Forall_app.
Qed.

Lemma Forall_try_except {A} (P : Event -> Prop) (m : Eff A) :
  Forall P m.1 -> Forall P (try_except m).1.
Proof. now destruct m as [t [[a|[msg|msg| |]]|]]. Qed.

Lemma Forall_sleep (P : Event -> Prop) seconds :
  (forall s, P (EvSleep s)) -> Forall P (sleep seconds).1.
Proof.
  intros H. unfold sleep.
  destruct (_ || _); [constructor|].
  destruct (seconds <? 0); simpl; repeat constructor.
  apply H.
Qed.

(** The fetch only requests pages and sleeps. *)
Lemma fetch_while_trace (P : Event -> Prop) answers url params retries cards :
  (forall u p, P (EvHttpGet u p)) ->
  (forall s, P (EvSleep s)) ->
  Forall P (fetch_scryfall_cards_while answers url params retries cards).1.
Proof.
  intros Hget Hsleep. revert url params retries cards.
  induction answers as [|answer answers IH]; intros url params retries cards.
  - destruct url as [[|c url]|]; simpl; constructor.
  - destruct url as [[|c url]|]; try (simpl; constructor).
    cbn [fetch_scryfall_cards_while].
    apply Forall_bind; [repeat constructor; apply Hget|intros _].
    destruct answer as [response|exc]; [|constructor].
    destruct (status_code response =? 429).
    { apply Forall_bind.
      - destruct (retry_after response) as [[seconds|raw]|]; constructor.
      - intros wait. apply Forall_bind; [now apply Forall_sleep|intros _].
        destruct (retries + 1 >? 5); [constructor|apply IH]. }
    destruct (_ && _).
    { destruct (retries + 1 >? 5); [constructor|].
      apply Forall_bind; [now apply Forall_sleep|intros _]. apply IH. }
    destruct (_ && _); [constructor|]. cbv zeta.
    destruct (has_more (json response)); [apply IH|constructor].
Qed.

Lemma sync_sheet_preview_run updates :
  sync_sheet_preview updates =
    (List.map (fun update => EvPrint (preview_line update)) updates,
     Some (Ok tt)).
Proof.
  induction updates as [|[row_index code] updates IH]; [reflexivity|].
  cbn [sync_sheet_preview]. rewrite IH. reflexivity.
Qed.

Lemma column_to_index_positive column index :
  column_to_index column = Ok index -> 1 <= index.
Proof.
  unfold column_to_index.
  destruct (upper (strip column)) as [|c chars]; [discriminate|].
  simpl not_str. cbv iota.
  assert (dec : forall x, {is_upper_AZ x = true} + {is_upper_AZ x = false})
    by (intros x; destruct (is_upper_AZ x); auto).
  destruct (Forall_Exists_dec _ _ dec (c :: chars)) as [HF|HE].
  - rewrite column_to_index_for_AZ by assumption. intros [= <-].
    pose proof (fold_column_step_lower _ HF) as H.
    cbn [fold_left length] in H. lia.
  - now rewrite column_to_index_for_bad by assumption.
Qed.

(** [sync_sheet] in a dry run, case by case. *)
Lemma sync_sheet_dry_run spreadsheet_id worksheet name_column start_row cards
    service :
  sync_sheet spreadsheet_id worksheet name_column start_row cards service true =
    if start_row <? 1
    then ([], Some (Raise (SheetSyncError (lit "start_row must be >= 1"))))
    else
      let read := EvSheetRead spreadsheet_id
                    (read_range worksheet name_column start_row) in
      match read_answer service with
      | HttpError exc =>
          ([read],
           Some (Raise (SheetSyncError
                          (lit "Failed to read sheet values: " ++ exc))))
      | Returned values =>
          match column_to_index name_column with
          | Raise e => ([read], Some (Raise e))
          | Ok index =>
              match index_to_column (index + 1) with
              | None => ([read], None)
              | Some (Raise e) => ([read], Some (Raise e))
              | Some (Ok _) =>
                  let outcome :=
                    reconcile (read_sheet_rows_for values start_row []) cards in
                  (read :: List.map (fun update => EvPrint (preview_line update))
                             outcome.1,
                   Some (Ok (mkSyncResult (Z.of_nat (length outcome.1))
                               outcome.2)))
              end
          end
      end.
Proof.
  unfold sync_sheet, read_sheet_rows, read_range.
  unfold mbind, Eff_bind, emit, raise, lift, lift_fuel, mret, Eff_ret.
  destruct (start_row <? 1); [reflexivity|].
  destruct (read_answer service) as [values|exc]; [|reflexivity].
  destruct (column_to_index name_column) as [index|e]; [|reflexivity].
  cbv beta iota zeta.
  destruct (index_to_column (index + 1)) as [[target|e]|]; try reflexivity.
  destruct (reconcile (read_sheet_rows_for values start_row []) cards)
    as [updates missing].
  rewrite sync_sheet_preview_run. simpl. now rewrite !app_nil_r.
Qed.

Lemma Forall_emit (P : Event -> Prop) e : P e -> Forall P (emit e).1.
Proof. intros H. simpl. now repeat constructor. Qed.

Lemma main_print_missing_trace (P : Event -> Prop) missing :
  (forall line, P (EvPrint line)) -> Forall P (main_print_missing missing).1.
Proof.
  intros H. induction missing as [|name missing IH]; [constructor|].
  cbn [main_print_missing]. apply Forall_bind; [now apply Forall_emit|auto].
Qed.

Lemma create_spreadsheet_trace (P : Event -> Prop) service title :
  (forall t, P (EvCreateSpreadsheet t)) ->
  Forall P (create_spreadsheet service title).1.
Proof.
  intros H. unfold create_spreadsheet.
  apply Forall_bind; [now apply Forall_emit|intros _].
  destruct (create_answer service); constructor.
Qed.

(** The events of [main] are those of [sync_sheet], and around them events
    that neither read nor write the sheet. *)
Lemma main_trace (P : Event -> Prop) world args :
  (forall e, is_read e = false -> is_write e = false -> P e) ->
  (forall sheet_id cards,
      Forall P (sync_sheet sheet_id (worksheet args) (column args)
                  (start_row args) cards (service world) (dry_run args)).1) ->
  Forall P (main world args).1.
Proof.
  intros HP Hsync. unfold main.
  destruct (credentials world) as [u|[msg|msg| |]];
    try (apply Forall_bind; [apply Forall_emit; now apply HP|intros _]);
    try constructor.
  match goal with
  | |- context [mbind _ (match ?s with _ => _ end)] =>
      generalize s; intros sheet_id
  end.
  assert (Hcreate :
    Forall P
      (r ← try_except (create_spreadsheet (service world) (create_title args));
       match r with
       | inl exc => emit (EvPrintErr exc);; mret (inl 1)
       | inr (sheet_id, sheet_url) =>
           emit (EvPrint (lit "Created spreadsheet: " ++ sheet_url));;
           mret (inr sheet_id)
       end : Eff (Z + str)).1).
  { apply Forall_bind.
    - apply Forall_try_except, create_spreadsheet_trace. intros t. now apply HP.
    - intros [exc|[id url]];
        (apply Forall_bind; [apply Forall_emit; now apply HP|intros _]);
        constructor. }
  apply Forall_bind.
  { destruct sheet_id as [[|c id]|]; [exact Hcreate|constructor|exact Hcreate]. }
  intros [status|sheet_id']; [constructor|].
  apply Forall_bind.
  { apply Forall_try_except. unfold fetch_scryfall_cards.
    apply fetch_while_trace; intros; now apply HP. }
  intros [exc|cards].
  { apply Forall_bind; [apply Forall_emit; now apply HP|intros _]. constructor. }
  apply Forall_bind; [apply Forall_try_except, Hsync|].
  intros [exc|result].
  { apply Forall_bind; [apply Forall_emit; now apply HP|intros _]. constructor. }
  apply Forall_bind.
  { destruct (missing_cards result) as [|name missing]; [constructor|].
    apply Forall_bind; [apply Forall_emit; now apply HP|intros _].
    apply main_print_missing_trace. intros line. now apply HP. }
  intros _. apply Forall_bind; [apply Forall_emit; now apply HP|intros _].
  constructor.
Qed.

Lemma bind_result {A B} (m : Eff A) (f : A -> Eff B) b :
  (m ≫= f).2 = Some (Ok b) ->
  exists a, m.2 = Some (Ok a) /\ (f a).2 = Some (Ok b).
Proof.
  destruct m as [t [[a|e]|]]; try discriminate.
  unfold mbind, Eff_bind. intros H. exists a. split; [reflexivity|].
  now destruct (f a).
Qed.

Lemma try_except_result {A} (m : Eff A) a :
  (try_except m).2 = Some (Ok (inr a)) -> m.2 = Some (Ok a).
Proof.
  destruct m as [t [[a'|[msg|msg| |]]|]]; simpl; congruence.
Qed.

(** When [sync_sheet] cannot succeed, a run that ends with a status ends
    with 1. *)
Lemma main_fails world args status :
  (forall sheet_id cards result,
      (sync_sheet sheet_id (worksheet args) (column args) (start_row args)
         cards (service world) (dry_run args)).2 <> Some (Ok result)) ->
  (main world args).2 = Some (Ok status) -> status = 1.
Proof.
  intros Hsync. unfold main.
  destruct (credentials world) as [u|[msg|msg| |]];
    try (simpl; congruence).
  intros H.
  apply bind_result in H as ([status'|sheet_id] & Hc & H).
  { injection H as <-.
    assert (Hcreate : forall m : Eff (str + str * str),
      (r ← m;
       match r with
       | inl exc => emit (EvPrintErr exc);; mret (inl 1)
       | inr (sheet_id, sheet_url) =>
           emit (EvPrint (lit "Created spreadsheet: " ++ sheet_url));;
           mret (inr sheet_id)
       end : Eff (Z + str)).2 = Some (Ok (inl status')) -> status' = 1).
    { intros m Hm. apply bind_result in Hm as ([exc|[id url]] & _ & Hm);
        simpl in Hm; congruence. }
    match type of Hc with
    | (match ?s with _ => _ end).2 = _ => destruct s as [[|c id]|]
    end; [now apply Hcreate in Hc|discriminate|now apply Hcreate in Hc]. }
  apply bind_result in H as ([exc|cards] & _ & H); [simpl in H; congruence|].
  apply bind_result in H as ([exc|result] & Hr & H); [simpl in H; congruence|].
  apply try_except_result in Hr. now apply Hsync in Hr.
Qed.

Lemma sync_sheet_bad_start_row spreadsheet_id worksheet name_column start_row
    cards service dry_run :
  start_row < 1 ->
  sync_sheet spreadsheet_id worksheet name_column start_row cards service
    dry_run =
  ([], Some (Raise (SheetSyncError (lit "start_row must be >= 1")))).
Proof.
  intros H. unfold sync_sheet, read_sheet_rows.
  now rewrite (proj2 (Z.ltb_lt start_row 1) H).
Qed.

Lemma sync_sheet_bad_column spreadsheet_id worksheet name_column start_row
    cards service dry_run e :
  1 <= start_row ->
  column_to_index name_column = Raise e ->
  sync_sheet spreadsheet_id worksheet name_column start_row cards service
    dry_run =
  ([EvSheetRead spreadsheet_id (read_range worksheet name_column start_row)],
   Some (Raise match read_answer service with
               | HttpError exc =>
                   SheetSyncError (lit "Failed to read sheet values: " ++ exc)
               | Returned _ => e
               end)).
Proof.
  intros H He. unfold sync_sheet, read_sheet_rows, read_range.
  rewrite (proj2 (Z.ltb_ge start_row 1) H), He.
  now destruct (read_answer service).
Qed.

(** ** Dry runs and invalid configurations *)

(** C9: a dry run never calls the write of the spreadsheet service,
    whatever happens: not in [sync_sheet] and not in [main].  When the
    start row is at least 1, the sheet is read and the column is valid,
    [sync_sheet] reads the sheet, prints one preview line for each update
    in their order and nothing else, and returns the number of updates
    with the missing names. *)
Theorem dry_run_previews :
  (forall (spreadsheet_id worksheet name_column : str) (start_row : Z)
          (cards : gmap (list N) CardRecord) (service : Service),
      Forall (fun e => is_write e = false)
        (sync_sheet spreadsheet_id worksheet name_column start_row cards
           service true).1
      /\ (forall values index,
             1 <= start_row ->
             read_answer service = Returned values ->
             column_to_index name_column = Ok index ->
             let outcome :=
               reconcile (read_sheet_rows_for values start_row []) cards in
             sync_sheet spreadsheet_id worksheet name_column start_row cards
               service true =
               (EvSheetRead spreadsheet_id
                  (read_range worksheet name_column start_row)
                  :: List.map (fun update => EvPrint (preview_line update))
                       outcome.1,
                Some (Ok (mkSyncResult (Z.of_nat (length outcome.1))
                            outcome.2)))
             /\ length (List.filter is_print
                          (sync_sheet spreadsheet_id worksheet name_column
                             start_row cards service true).1) =
                  length outcome.1))
  /\ (forall (world : World) (args : Args),
         dry_run args = true ->
         Forall (fun e => is_write e = false) (main world args).1).
Proof.
  assert (Hquiet : forall spreadsheet_id worksheet name_column start_row cards
                          service,
    Forall (fun e => is_write e = false)
      (sync_sheet spreadsheet_id worksheet name_column start_row cards
         service true).1).
  { intros spreadsheet_id worksheet name_column start_row cards service.
    rewrite sync_sheet_dry_run.
    destruct (start_row <? 1); [constructor|]. cbv zeta.
    destruct (read_answer service) as [values|exc]; [|now repeat constructor].
    destruct (column_to_index name_column) as [index|e];
      [|now repeat constructor].
    destruct (index_to_column (index + 1)) as [[target|e]|];
      try now repeat constructor.
    simpl. constructor; [reflexivity|]. apply Forall_map.
    now apply Forall_forall. }
  split.
  - intros spreadsheet_id worksheet name_column start_row cards service.
    split; [apply Hquiet|].
    intros values index Hrow Hread Hcol outcome.
    assert (E : sync_sheet spreadsheet_id worksheet name_column start_row cards
                  service true =
                (EvSheetRead spreadsheet_id
                   (read_range worksheet name_column start_row)
                   :: List.map (fun update => EvPrint (preview_line update))
                        outcome.1,
                 Some (Ok (mkSyncResult (Z.of_nat (length outcome.1))
                             outcome.2)))).
    { rewrite sync_sheet_dry_run.
      rewrite (proj2 (Z.ltb_ge start_row 1) Hrow), Hread, Hcol. cbv zeta.
      apply column_to_index_positive in Hcol.
      destruct (index_to_column_total (index + 1))
        as [[Hlt _]|[_ [target ->]]]; [lia|reflexivity]. }
    split; [exact E|]. rewrite E. clear E. cbn [fst List.filter is_read is_print].
    generalize outcome.1. intros updates.
    induction updates as [|update updates IH]; [reflexivity|].
    simpl. now rewrite IH.
  - intros world args Hdry. apply main_trace.
    + intros e _ H. exact H.
    + intros sheet_id cards. rewrite Hdry. apply Hquiet.
Qed.

Lemma dry_run_previews_witness :
  let service :=
    mkService (Returned (lit "ID1"))
      (Returned [[lit "Aang"]; []; [lit " Zuko "; lit "x"]]) (Returned tt) in
  sync_sheet (lit "ID1") (lit "Sheet1") (lit "A") 2 example_catalog service
    true =
    ([EvSheetRead (lit "ID1") (lit "Sheet1!A2:A");
      EvPrint (lit "Would update row 2 to M");
      EvPrint (lit "Would update row 4 to C")],
     Some (Ok (mkSyncResult 2 []))).
Proof.
  intros service.
  refine (proj1 (proj2 (proj1 dry_run_previews (lit "ID1") (lit "Sheet1")
                          (lit "A") 2 example_catalog service)
                   [[lit "Aang"]; []; [lit " Zuko "; lit "x"]] 1 _ _ _)).
  - lia.
  - reflexivity.
  - reflexivity.
Defined.

Lemma bind_trace {A B} (m : Eff A) (f : A -> Eff B) :
  exists rest, (m ≫= f).1 = m.1 ++ rest.
Proof.
  destruct m as [t [[a|e]|]]; try (exists []; simpl; now rewrite app_nil_r).
  unfold mbind, Eff_bind. destruct (f a) as [t' r]. now exists t'.
Qed.

Lemma bind_mret {A B} (a : A) (f : A -> Eff B) : mret a ≫= f = f a.
Proof. unfold mbind, Eff_bind, mret, Eff_ret. now destruct (f a). Qed.

Lemma try_except_trace {A} (m : Eff A) : (try_except m).1 = m.1.
Proof. now destruct m as [t [[a|[msg|msg| |]]|]]. Qed.

(** With an answer at hand, the loop of the fetch starts with a request. *)
Lemma fetch_while_first answer answers url params retries cards :
  url <> [] ->
  exists rest,
    (fetch_scryfall_cards_while (answer :: answers) (Some url) params retries
       cards).1 =
    EvHttpGet url (sent_params url params) :: rest.
Proof.
  intros Hurl. destruct url as [|c url]; [congruence|].
  cbn [fetch_scryfall_cards_while].
  match goal with
  | |- context [mbind ?f (emit ?e)] =>
      destruct (bind_trace (emit e) f) as [rest ->]
  end.
  now exists rest.
Qed.

Lemma search_sheet_id_not_empty sheet_url : search_sheet_id sheet_url <> Some [].
Proof.
  induction sheet_url as [|c sheet_url IH]; [discriminate|].
  cbn [search_sheet_id].
  destruct (strip_prefix _ _) as [tail|]; [|exact IH].
  destruct (take_while is_sheet_id_char tail); [exact IH|discriminate].
Qed.

(** C2, as the script has it: with a start row below 1, or a column that
    [column_to_index] rejects, a run that ends with a status ends with
    status 1, and it never writes to the sheet.  [sync_sheet] rejects a
    start row below 1 before the sheet is read, and a bad column once the
    sheet has been read.  Both come after the catalog fetch: when the
    credentials are there, the sheet is named and Scryfall answers, the run
    starts with the request of the catalog. *)
Theorem invalid_configuration_fails :
  forall (world : World) (args : Args),
    start_row args < 1 \/ (exists e, column_to_index (column args) = Raise e) ->
    (forall status, (main world args).2 = Some (Ok status) -> status = 1)
    /\ Forall (fun e => is_write e = false) (main world args).1
    /\ (start_row args < 1 ->
        Forall (fun e => is_read e = false) (main world args).1)
    /\ (forall sheet_id cards,
           start_row args < 1 ->
           sync_sheet sheet_id (worksheet args) (column args) (start_row args)
             cards (service world) (dry_run args) =
           ([], Some (Raise (SheetSyncError (lit "start_row must be >= 1")))))
    /\ (forall sheet_id cards e values,
           1 <= start_row args ->
           column_to_index (column args) = Raise e ->
           read_answer (service world) = Returned values ->
           sync_sheet sheet_id (worksheet args) (column args) (start_row args)
             cards (service world) (dry_run args) =
           ([EvSheetRead sheet_id
               (read_range (worksheet args) (column args) (start_row args))],
            Some (Raise e)))
    /\ (forall unit_value url sheet_id answer answers,
           credentials world = Ok unit_value ->
           sheet_url args = Some url ->
           parse_sheet_id url = Some sheet_id ->
           scryfall world = answer :: answers ->
           exists rest,
             (main world args).1 =
             EvHttpGet SCRYFALL_SEARCH_ENDPOINT
               (Some (lit "set:" ++ set_code args)) :: rest).
Proof.
  intros world args Hbad.
  assert (Hsync : forall sheet_id cards,
    exists trace e,
      sync_sheet sheet_id (worksheet args) (column args) (start_row args)
        cards (service world) (dry_run args) = (trace, Some (Raise e))
      /\ Forall (fun ev => is_write ev = false) trace
      /\ (start_row args < 1 -> trace = [])).
  { intros sheet_id cards.
    destruct (Z.lt_ge_cases (start_row args) 1) as [Hlt|Hge].
    - rewrite sync_sheet_bad_start_row by assumption.
      do 2 eexists. split; [reflexivity|]. split; [constructor|reflexivity].
    - destruct Hbad as [Hlt|[e He]]; [lia|].
      rewrite (sync_sheet_bad_column _ _ _ _ _ _ _ e) by assumption.
      do 2 eexists. split; [reflexivity|].
      split; [now repeat constructor|lia]. }
  split; [|split; [|split; [|split; [|split]]]].
  - intros status. apply main_fails. intros sheet_id cards result.
    destruct (Hsync sheet_id cards) as (trace & e & -> & _). discriminate.
  - apply main_trace; [intros e _ H; exact H|].
    intros sheet_id cards.
    now destruct (Hsync sheet_id cards) as (trace & e & -> & H & _).
  - intros Hlt. apply main_trace; [intros e H _; exact H|].
    intros sheet_id cards.
    destruct (Hsync sheet_id cards) as (trace & e & -> & _ & H).
    rewrite (H Hlt). constructor.
  - intros sheet_id cards Hlt. now apply sync_sheet_bad_start_row.
  - intros sheet_id cards e values Hge He Hread.
    rewrite (sync_sheet_bad_column _ _ _ _ _ _ _ e) by assumption.
    now rewrite Hread.
  - intros unit_value url sheet_id answer answers Hcred Hurl Hparse Hanswers.
    unfold main. rewrite Hcred, Hurl.
    destruct url as [|c url]; [discriminate|]. rewrite Hparse.
    destruct sheet_id as [|c' sheet_id];
      [now destruct (search_sheet_id_not_empty (c :: url))|].
    rewrite bind_mret.
    match goal with
    | |- context [mbind ?f (try_except ?m)] =>
        destruct (bind_trace (try_except m) f) as [rest ->]
    end.
    rewrite try_except_trace. unfold fetch_scryfall_cards. rewrite Hanswers.
    destruct (fetch_while_first answer answers SCRYFALL_SEARCH_ENDPOINT
                (Some (lit "set:" ++ set_code args)) 0 ∅) as [rest' ->];
      [discriminate|].
    exists (rest' ++ rest). unfold sent_params. now case_decide.
Qed.

Lemma invalid_configuration_fails_witness :
  (forall status,
      (main answering_world zero_start_row_args).2 = Some (Ok status) ->
      status = 1)
  /\ Forall (fun e => is_write e = false)
       (main answering_world zero_start_row_args).1.
Proof.
  destruct (invalid_configuration_fails answering_world zero_start_row_args)
    as (H1 & H2 & _).
  - left. simpl. lia.
  - split; [exact H1|exact H2].
Defined.

(** C2 as the specification has it does not hold of the script: with a
    start row of 0 the spreadsheet is created and the catalog is requested
    before the start row is rejected. *)
Lemma validation_after_network_calls :
  main answering_world zero_start_row_args =
    ([EvCreateSpreadsheet (lit "The Last Airbender Sync");
      EvPrint (lit "Created spreadsheet: https://docs.google.com/spreadsheets/d/ID1");
      EvHttpGet SCRYFALL_SEARCH_ENDPOINT (Some (lit "set:tla"));
      EvPrintErr (lit "start_row must be >= 1")],
     Some (Ok 1))
  /\ ~ (forall (world : World) (args : Args),
           start_row args < 1 \/ column args = [] ->
           Forall (fun e => is_network e = false) (main world args).1).
Proof.
  split; [vm_compute; reflexivity|].
  intros H. specialize (H answering_world zero_start_row_args).
  assert (Hlt : start_row zero_start_row_args < 1) by (simpl; lia).
  specialize (H (or_introl Hlt)). vm_compute in H.
  inversion H as [|? ? Hhead _]. discriminate.
Qed.

(** * Further properties of the script *)

(** ** Column addressing, the other way round *)

Lemma column_to_index_Ok_inv column index :
  column_to_index column = Ok index ->
  upper (strip column) <> []
  /\ Forall (fun c => is_upper_AZ c = true) (upper (strip column))
  /\ index = fold_left column_step (upper (strip column)) 0.
Proof.
  unfold column_to_index.
  destruct (upper (strip column)) as [|c chars]; [discriminate|].
  simpl not_str. cbv iota. intros H.
  assert (dec : forall x, {is_upper_AZ x = true} + {is_upper_AZ x = false})
    by (intros x; destruct (is_upper_AZ x); auto).
  destruct (Forall_Exists_dec _ _ dec (c :: chars)) as [HF|HE].
  - rewrite column_to_index_for_AZ in H by assumption.
    injection H as <-. now repeat split.
  - now rewrite column_to_index_for_bad in H by assumption.
Qed.

Lemma upper_AZ_id s :
  Forall (fun c => is_upper_AZ c = true) s -> upper s = s.
Proof.
  intros H.
  assert (Hl : Forall (fun c => is_letter c = true) s).
  { eapply Forall_impl; [exact H|]. intros c Hc. unfold is_letter.
    now rewrite Hc. }
  rewrite upper_letters by assumption.
  induction H as [|c s Hc _ IH]; [reflexivity|].
  inversion Hl; subst. simpl. rewrite IH by assumption. f_equal.
  unfold upper_letter. apply is_upper_AZ_spec in Hc.
  destruct (is_lower_az c) eqn:E; [|reflexivity].
  apply is_lower_az_spec in E. lia.
Qed.

Lemma column_to_index_AZ s :
  s <> [] -> Forall (fun c => is_upper_AZ c = true) s ->
  column_to_index s = Ok (fold_left column_step s 0).
Proof.
  intros Hne H.
  assert (Hl : Forall (fun c => is_letter c = true) s).
  { eapply Forall_impl; [exact H|]. intros c Hc. unfold is_letter.
    now rewrite Hc. }
  rewrite column_to_index_letters by assumption.
  now rewrite upper_AZ_id.
Qed.

(** What the loop of [index_to_column] appends, read backwards, is a
    text of letters A to Z whose value is the index. *)
Lemma index_to_column_while_digits fuel index acc :
  0 <= index <= Z.of_nat fuel ->
  exists chars,
    index_to_column_while fuel index acc = Some (acc ++ chars)
    /\ Forall (fun c => is_upper_AZ c = true) chars
    /\ fold_left column_step (rev chars) 0 = index
    /\ (1 <= index -> chars <> []).
Proof.
  revert index acc. induction fuel as [|fuel IH]; intros index acc H.
  - assert (index = 0) by lia. subst. exists []. simpl.
    rewrite app_nil_r. repeat split; [constructor|lia].
  - cbn [index_to_column_while].
    destruct (index =? 0) eqn:E.
    { apply Z.eqb_eq in E. subst. exists []. rewrite app_nil_r.
      repeat split; [constructor|lia]. }
    apply Z.eqb_neq in E.
    pose proof (Z.div_mod (index - 1) 26 ltac:(lia)) as Hdm.
    pose proof (Z.mod_pos_bound (index - 1) 26 ltac:(lia)) as Hr.
    pose proof (Z.div_pos (index - 1) 26 ltac:(lia) ltac:(lia)) as Hq0.
    unfold Z.div, Z.modulo in Hdm, Hr, Hq0.
    destruct (Z.div_eucl (index - 1) 26) as [q r]. simpl in Hdm, Hr, Hq0.
    destruct (IH q (acc ++ [chr (65 + r)]) ltac:(lia))
      as (chars & Hrun & HAZ & Hval & _).
    exists (chr (65 + r) :: chars). rewrite Hrun, <- app_assoc.
    split; [reflexivity|]. split; [|split; [|discriminate]].
    + constructor; [|assumption]. apply is_upper_AZ_spec. unfold chr. lia.
    + simpl. rewrite fold_left_app, Hval. simpl.
      unfold column_step, ord, chr. lia.
Qed.

(** From 1 on, [index_to_column] ends, its text is not empty and holds
    letters A to Z only, and [column_to_index] maps the text back to the
    index. *)
Theorem index_round_trip :
  forall index : Z,
    1 <= index ->
    exists text,
      index_to_column index = Some (Ok text)
      /\ text <> []
      /\ Forall (fun c => is_upper_AZ c = true) text
      /\ column_to_index text = Ok index.
Proof.
  intros index H. unfold index_to_column, index_to_column_fuel.
  destruct (Z.ltb_spec index 1) as [Hlt|_]; [lia|].
  destruct (index_to_column_while_digits (Z.to_nat index) index [])
    as (chars & -> & HAZ & Hval & Hne); [lia|].
  simpl. exists (rev chars).
  assert (Hne' : rev chars <> []).
  { intros E. apply (f_equal (@rev N)) in E. rewrite rev_involutive in E.
    now apply Hne. }
  assert (HAZ' : Forall (fun c => is_upper_AZ c = true) (rev chars))
    by now apply Forall_rev.
  repeat split; try assumption.
  now rewrite column_to_index_AZ, Hval.
Qed.

Lemma index_round_trip_witness :
  exists text,
    index_to_column 703 = Some (Ok text)
    /\ text <> []
    /\ Forall (fun c => is_upper_AZ c = true) text
    /\ column_to_index text = Ok 703.
Proof. apply index_round_trip. lia. Defined.

(** Two columns with the same index are the same once stripped and put in
    upper case. *)
Theorem column_to_index_injective :
  forall (a b : str) (index : Z),
    column_to_index a = Ok index ->
    column_to_index b = Ok index ->
    upper (strip a) = upper (strip b).
Proof.
  intros a b index Ha Hb.
  apply column_to_index_Ok_inv in Ha as (_ & HAa & Ea).
  apply column_to_index_Ok_inv in Hb as (_ & HAb & Eb).
  set (fuel := (length (upper (strip a)) + length (upper (strip b)))%nat).
  pose proof (index_to_column_while_fold _ [] fuel HAa ltac:(unfold fuel; lia))
    as Ra.
  pose proof (index_to_column_while_fold _ [] fuel HAb ltac:(unfold fuel; lia))
    as Rb.
  rewrite <- Ea in Ra. rewrite <- Eb, Ra in Rb.
  injection Rb as Rb. simpl in Rb.
  apply (f_equal (@rev N)) in Rb. now rewrite !rev_involutive in Rb.
Qed.

Lemma column_to_index_injective_witness :
  upper (strip (lit " ab ")) = upper (strip (lit "AB")).
Proof.
  apply (column_to_index_injective (lit " ab ") (lit "AB") 28); reflexivity.
Defined.

(** ** Sheet identifiers *)

Lemma strip_prefix_Some prefix s tail :
  strip_prefix prefix s = Some tail -> s = prefix ++ tail.
Proof.
  revert s. induction prefix as [|p prefix IH]; intros s H.
  - simpl in H. now injection H as <-.
  - destruct s as [|c s]; [discriminate|]. simpl in H.
    destruct (N.eqb_spec p c) as [->|_]; [|discriminate].
    simpl. f_equal. now apply IH.
Qed.

Lemma strip_prefix_app prefix tail : strip_prefix prefix (prefix ++ tail) = Some tail.
Proof.
  induction prefix as [|p prefix IH]; [reflexivity|].
  simpl. now rewrite N.eqb_refl.
Qed.

(** The text after the longest run of [f] at the start of [s]. *)
Lemma take_while_split (f : N -> bool) s :
  exists post,
    s = take_while f s ++ post
    /\ Forall (fun c => f c = true) (take_while f s)
    /\ match post with [] => True | c :: _ => f c = false end.
Proof.
  induction s as [|c s (post & E & HF & Hpost)].
  - exists []. repeat split. constructor.
  - simpl. destruct (f c) eqn:Ec.
    + exists post. simpl. rewrite <- E. repeat split; [|assumption].
      now constructor.
    + exists (c :: s). repeat split; [constructor|assumption].
Qed.

Lemma take_while_app (f : N -> bool) run post :
  Forall (fun c => f c = true) run ->
  match post with [] => True | c :: _ => f c = false end ->
  take_while f (run ++ post) = run.
Proof.
  intros H Hpost. induction H as [|c run Hc _ IH]; simpl.
  - destruct post as [|c post]; [reflexivity|]. simpl. now rewrite Hpost.
  - now rewrite Hc, IH.
Qed.

(** What [parse_sheet_id] returns is not empty, is made of the characters
    of the class, and stands in the URL right after ["/spreadsheets/d/"]
    and right before the end or a character outside the class. *)
Theorem parse_sheet_id_sound :
  forall sheet_url sheet_id : str,
    parse_sheet_id sheet_url = Some sheet_id ->
    sheet_id <> []
    /\ Forall (fun c => is_sheet_id_char c = true) sheet_id
    /\ exists before after,
         sheet_url = before ++ lit "/spreadsheets/d/" ++ sheet_id ++ after
         /\ match after with
            | [] => True
            | c :: _ => is_sheet_id_char c = false
            end.
Proof.
  intros sheet_url sheet_id. unfold parse_sheet_id.
  destruct (not_str sheet_url); [discriminate|].
  induction sheet_url as [|c sheet_url IH]; [discriminate|].
  cbn [search_sheet_id].
  assert (Hrest : search_sheet_id sheet_url = Some sheet_id ->
                  sheet_id <> []
                  /\ Forall (fun c => is_sheet_id_char c = true) sheet_id
                  /\ exists before after,
                       c :: sheet_url =
                         before ++ lit "/spreadsheets/d/" ++ sheet_id ++ after
                       /\ match after with
                          | [] => True
                          | c :: _ => is_sheet_id_char c = false
                          end).
  { intros H. destruct (IH H) as (Hne & HF & before & after & -> & Hafter).
    repeat split; try assumption. now exists (c :: before), after. }
  destruct (strip_prefix _ (c :: sheet_url)) as [tail|] eqn:Ep; [|exact Hrest].
  apply strip_prefix_Some in Ep.
  destruct (take_while_split is_sheet_id_char tail) as (after & Et & HF & Ha).
  destruct (take_while is_sheet_id_char tail) as [|g group]; [exact Hrest|].
  intros [= <-]. split; [discriminate|]. split; [assumption|].
  exists [], after. split; [|assumption]. now rewrite Ep, Et.
Qed.

Lemma parse_sheet_id_sound_witness :
  lit "abc-_9" <> []
  /\ Forall (fun c => is_sheet_id_char c = true) (lit "abc-_9")
  /\ exists before after,
       lit "https://docs.google.com/spreadsheets/d/abc-_9/edit" =
         before ++ lit "/spreadsheets/d/" ++ lit "abc-_9" ++ after
       /\ match after with
          | [] => True
          | c :: _ => is_sheet_id_char c = false
          end.
Proof.
  apply (parse_sheet_id_sound
           (lit "https://docs.google.com/spreadsheets/d/abc-_9/edit")).
  reflexivity.
Defined.

Lemma search_sheet_id_cons c s :
  search_sheet_id (c :: s) =
    match strip_prefix (lit "/spreadsheets/d/") (c :: s) with
    | Some tail =>
        match take_while is_sheet_id_char tail with
        | [] => search_sheet_id s
        | group => Some group
        end
    | None => search_sheet_id s
    end.
Proof. reflexivity. Qed.

(** A place where the pattern cannot start: the character is no slash, or
    the one after it is no s. *)
Lemma search_sheet_id_skip c s :
  c <> 47%N \/ (exists d s', s = d :: s' /\ d <> 115%N) ->
  search_sheet_id (c :: s) = search_sheet_id s.
Proof.
  intros H. rewrite search_sheet_id_cons.
  change (lit "/spreadsheets/d/") with (47%N :: 115%N :: lit "preadsheets/d/").
  cbn [strip_prefix].
  destruct (N.eqb_spec 47 c) as [<-|Hc]; [|reflexivity].
  destruct H as [H|(d & s' & -> & Hd)]; [congruence|].
  now destruct (N.eqb_spec 115 d) as [<-|_].
Qed.

Lemma search_sheet_id_skip_all before s :
  (forall k c rest,
      drop k before ++ s = c :: rest ->
      (k < length before)%nat ->
      c <> 47%N \/ exists d s', rest = d :: s' /\ d <> 115%N) ->
  search_sheet_id (before ++ s) = search_sheet_id s.
Proof.
  induction before as [|c before IH]; intros H; [reflexivity|].
  cbn [app]. rewrite search_sheet_id_skip.
  - apply IH. intros k c' rest Hk Hlt. apply (H (S k)); [exact Hk|simpl; lia].
  - apply (H 0%nat); [reflexivity|simpl; lia].
Qed.

Lemma search_sheet_id_at_pattern tail :
  search_sheet_id (lit "/spreadsheets/d/" ++ tail) =
    match take_while is_sheet_id_char tail with
    | [] => search_sheet_id (lit "spreadsheets/d/" ++ tail)
    | group => Some group
    end.
Proof.
  change (lit "/spreadsheets/d/" ++ tail)
    with (47%N :: (lit "spreadsheets/d/" ++ tail)) at 1.
  rewrite search_sheet_id_cons.
  change (47%N :: (lit "spreadsheets/d/" ++ tail))
    with (lit "/spreadsheets/d/" ++ tail).
  now rewrite strip_prefix_app.
Qed.

Lemma search_sheet_id_docs tail :
  search_sheet_id (lit "https://docs.google.com/spreadsheets/d/" ++ tail) =
    match take_while is_sheet_id_char tail with
    | [] => search_sheet_id (lit "spreadsheets/d/" ++ tail)
    | group => Some group
    end.
Proof.
  change (lit "https://docs.google.com/spreadsheets/d/" ++ tail)
    with (lit "https://docs.google.com" ++ lit "/spreadsheets/d/" ++ tail).
  rewrite search_sheet_id_skip_all; [apply search_sheet_id_at_pattern|].
  intros k c rest Hk Hlt.
  change (length (lit "https://docs.google.com")) with 23%nat in Hlt.
  change (lit "/spreadsheets/d/" ++ tail)
    with (47%N :: 115%N :: lit "preadsheets/d/" ++ tail) in Hk.
  do 23 (destruct k as [|k];
         [injection Hk as <- <-;
          first [left; discriminate | right; eexists _, _; split;
                                      [reflexivity|discriminate]]|]).
  lia.
Qed.

(** The URL that [create_spreadsheet] returns names the spreadsheet it
    created: [parse_sheet_id] gives the identifier back, also when the
    URL goes on after it, as long as the identifier is not empty and made
    of the characters of the class. *)
Theorem created_url_round_trip :
  forall (service : Service) (title sheet_id after : str),
    create_answer service = Returned sheet_id ->
    sheet_id <> [] ->
    Forall (fun c => is_sheet_id_char c = true) sheet_id ->
    match after with [] => True | c :: _ => is_sheet_id_char c = false end ->
    exists url,
      create_spreadsheet service title =
        ([EvCreateSpreadsheet title], Some (Ok (sheet_id, url)))
      /\ parse_sheet_id (url ++ after) = Some sheet_id.
Proof.
  intros service title sheet_id after Hanswer Hne HF Hafter.
  unfold create_spreadsheet. rewrite Hanswer.
  eexists. split; [reflexivity|].
  rewrite <- app_assoc. unfold parse_sheet_id.
  change (not_str (lit "https://docs.google.com/spreadsheets/d/"
                     ++ sheet_id ++ after)) with false.
  cbv iota.
  rewrite search_sheet_id_docs, take_while_app by assumption.
  destruct sheet_id; [congruence|reflexivity].
Qed.

Lemma created_url_round_trip_witness :
  exists url,
    create_spreadsheet
      (mkService (Returned (lit "1aB-_z")) (Returned []) (Returned tt))
      (lit "T") =
      ([EvCreateSpreadsheet (lit "T")], Some (Ok (lit "1aB-_z", url)))
    /\ parse_sheet_id (url ++ lit "/edit#gid=0") = Some (lit "1aB-_z").
Proof.
  apply created_url_round_trip.
  - reflexivity.
  - discriminate.
  - repeat constructor.
  - reflexivity.
Defined.

(** ** The rows read from the sheet *)

Lemma read_sheet_rows_for_acc values index rows :
  read_sheet_rows_for values index rows =
    rows ++ read_sheet_rows_for values index [].
Proof.
  revert index rows. induction values as [|row values IH]; intros index rows.
  - simpl. now rewrite app_nil_r.
  - destruct row as [|cell row]; simpl; [apply IH|].
    rewrite IH, (IH _ [(index, cell)]). now rewrite app_assoc.
Qed.

Lemma read_sheet_rows_for_cons row values index :
  read_sheet_rows_for (row :: values) index [] =
    match row with [] => [] | cell :: _ => [(index, cell)] end
    ++ read_sheet_rows_for values (index + 1) [].
Proof.
  destruct row as [|cell row]; simpl; [reflexivity|].
  now rewrite read_sheet_rows_for_acc.
Qed.

Lemma read_sheet_rows_for_In values index i cell :
  In (i, cell) (read_sheet_rows_for values index []) <->
  exists (k : nat) rest,
    values !! k = Some (cell :: rest) /\ i = index + Z.of_nat k.
Proof.
  revert index. induction values as [|row values IH]; intros index.
  - simpl. split; [tauto|]. now intros (k & rest & H & _).
  - rewrite read_sheet_rows_for_cons, in_app_iff, IH. split.
    + intros [H|(k & rest & H & ->)].
      * destruct row as [|c row]; [destruct H|].
        destruct H as [[= <- <-]|[]]. exists 0%nat, row.
        split; [reflexivity|lia].
      * exists (S k), rest. split; [exact H|lia].
    + intros ([|k] & rest & H & ->).
      * left. simpl in H. injection H as ->. left. f_equal. lia.
      * right. exists k, rest. split; [exact H|lia].
Qed.

Lemma sublist_StronglySorted {A} (R : A -> A -> Prop) l1 l2 :
  sublist l1 l2 -> StronglySorted R l2 -> StronglySorted R l1.
Proof.
  induction 1 as [|x l1 l2 Hsub IH|x l1 l2 Hsub IH]; intros H.
  - constructor.
  - apply StronglySorted_inv in H as [H1 H2]. constructor; [auto|].
    apply Forall_forall. intros y Hy. rewrite Forall_forall in H2.
    apply H2. eapply sublist_subseteq; eassumption.
  - apply StronglySorted_inv in H as [H1 _]. auto.
Qed.

Lemma read_sheet_rows_for_sorted values index :
  StronglySorted Z.lt (List.map fst (read_sheet_rows_for values index [])).
Proof.
  revert index. induction values as [|row values IH]; intros index.
  - constructor.
  - rewrite read_sheet_rows_for_cons.
    destruct row as [|cell row]; simpl; [apply IH|].
    constructor; [apply IH|].
    apply Forall_forall. intros i Hi. apply list_elem_of_In in Hi.
    apply in_map_iff in Hi as ([i' c] & <- & Hin).
    apply read_sheet_rows_for_In in Hin as (k & rest & _ & ->). simpl. lia.
Qed.

(** [read_sheet_rows] numbers the rows of the range from the start row,
    one number for each row of the answer, empty or not, and keeps the
    first cell of the rows that are not empty: the rows it returns are the
    pairs of [start_row + k] and the first cell of row [k], in strictly
    increasing order of their number. *)
Theorem read_sheet_rows_numbering :
  forall (values : list (list str)) (start_row : Z),
    (forall i cell,
        In (i, cell) (read_sheet_rows_for values start_row []) <->
        exists (k : nat) rest,
          values !! k = Some (cell :: rest) /\ i = start_row + Z.of_nat k)
    /\ StronglySorted Z.lt
         (List.map fst (read_sheet_rows_for values start_row []))
    /\ (length (read_sheet_rows_for values start_row []) <= length values)%nat.
Proof.
  intros values start_row. split; [|split].
  - intros i cell. apply read_sheet_rows_for_In.
  - apply read_sheet_rows_for_sorted.
  - revert start_row. induction values as [|row values IH]; intros start_row.
    + simpl. lia.
    + rewrite read_sheet_rows_for_cons, length_app. specialize (IH (start_row + 1)).
      destruct row; simpl; lia.
Qed.

Lemma reconcile_indices_sublist rows cards :
  sublist (List.map fst (reconcile rows cards).1) (List.map fst rows).
Proof.
  unfold reconcile. rewrite sync_sheet_for_flat_map. simpl.
  induction rows as [|row rows IH]; simpl; [constructor|].
  rewrite map_app.
  destruct (reconcile_row_cases cards row) as [->|[->|[code ->]]]; simpl;
    now constructor.
Qed.

(** No cell is updated twice: the updates computed from the rows that
    [read_sheet_rows] returns have strictly increasing row numbers, all
    within the rows that were read. *)
Theorem updates_rows_increasing :
  forall (values : list (list str)) (start_row : Z)
         (cards : gmap (list N) CardRecord),
    let updates :=
      (reconcile (read_sheet_rows_for values start_row []) cards).1 in
    StronglySorted Z.lt (List.map fst updates)
    /\ Forall (fun update =>
                 start_row <= update.1 < start_row + Z.of_nat (length values))
         updates.
Proof.
  intros values start_row cards updates.
  pose proof (reconcile_indices_sublist
                (read_sheet_rows_for values start_row []) cards) as Hsub.
  fold updates in Hsub. split.
  - eapply sublist_StronglySorted; [exact Hsub|].
    apply read_sheet_rows_for_sorted.
  - apply Forall_forall. intros [i code] Hin.
    assert (Hi : i ∈ List.map fst updates).
    { apply list_elem_of_In, in_map_iff. exists (i, code).
      split; [reflexivity|]. now apply list_elem_of_In. }
    apply (sublist_subseteq _ _ Hsub) in Hi.
    apply list_elem_of_In, in_map_iff in Hi as ([i' cell] & <- & Hin').
    apply read_sheet_rows_for_In in Hin' as (k & rest & Hk & ->).
    apply lookup_lt_Some in Hk. simpl. lia.
Qed.

(** ** The catalog fetch: server errors and failures *)

Lemma fetch_while_server_error url params retries cards response rest :
  url <> [] ->
  0 <= retries ->
  server_error response ->
  fetch_scryfall_cards_while (Answer response :: rest) (Some url) params
    retries cards =
  if retries + 1 >? 5
  then ([EvHttpGet url (sent_params url params)],
        Some (Raise (SheetSyncError
                       (lit "Scryfall returned "
                          ++ str_of_int (status_code response)
                          ++ lit " repeatedly. Aborting."))))
  else prepend [EvHttpGet url (sent_params url params);
                EvSleep (2 ^ (retries + 1))]
         (fetch_scryfall_cards_while rest (Some url) params (retries + 1)
            cards).
Proof.
  intros Hurl Hretries Hs. unfold server_error in Hs.
  destruct url as [|c url]; [congruence|].
  cbn [fetch_scryfall_cards_while].
  rewrite (proj2 (Z.eqb_neq (status_code response) 429)) by lia.
  rewrite (proj2 (Z.leb_le 500 (status_code response))) by lia.
  rewrite (proj2 (Z.ltb_lt (status_code response) 600)) by lia.
  cbn [andb]. cbv zeta.
  destruct (Z.gtb_spec (retries + 1) 5) as [|Hle]; [reflexivity|].
  assert (Hsleep : sleep (2 ^ (retries + 1)) = emit (EvSleep (2 ^ (retries + 1)))).
  { apply sleep_accepts. split; [apply Z.pow_nonneg; lia|].
    transitivity (2 ^ 5); [apply Z.pow_le_mono_r; lia|].
    unfold SLEEP_LIMIT. lia. }
  rewrite Hsleep.
  now destruct (fetch_scryfall_cards_while rest _ params (retries + 1) cards)
    as [t [[a|e]|]].
Qed.

Lemma backoff_trace_S url params retries count :
  backoff_trace url params retries (S count) =
    [EvHttpGet url (sent_params url params); EvSleep (2 ^ (retries + 1))]
      ++ backoff_trace url params (retries + 1) count.
Proof.
  unfold backoff_trace. cbn [seq flat_map app]. do 2 f_equal.
  rewrite <- seq_shift, flat_map_concat_map, List.map_map,
    <- flat_map_concat_map.
  apply flat_map_ext. intros k.
  now replace (retries + Z.of_nat (S k)) with (retries + 1 + Z.of_nat k) by lia.
Qed.

Lemma fetch_while_backoff url params retries cards errors rest :
  url <> [] ->
  0 <= retries ->
  Forall server_error errors ->
  retries + Z.of_nat (length errors) <= 5 ->
  fetch_scryfall_cards_while (List.map Answer errors ++ rest) (Some url)
    params retries cards =
  prepend (backoff_trace url params retries (length errors))
    (fetch_scryfall_cards_while rest (Some url) params
       (retries + Z.of_nat (length errors)) cards).
Proof.
  intros Hurl Hretries H. revert retries Hretries.
  induction H as [|response errors Hr _ IH]; intros retries Hretries Hle.
  - simpl. now rewrite Z.add_0_r, prepend_nil.
  - cbn [List.map app length] in *.
    rewrite fetch_while_server_error by assumption.
    destruct (Z.gtb_spec (retries + 1) 5) as [Hgt|_]; [lia|].
    rewrite IH by lia.
    rewrite backoff_trace_S, prepend_app.
    now replace (retries + 1 + Z.of_nat (length errors))
      with (retries + Z.of_nat (S (length errors))) by lia.
Qed.

(** After a server error the fetcher requests the same page again, after
    a wait that doubles with every retry: 2, 4, 8, 16 and 32 seconds from
    the start of a fetch.  So a fetch that meets at most five server
    errors and then the last page returns its records; the sixth server
    error in a row ends the fetch at once, without a wait; and since rate
    limits and server errors share the count, after server errors the
    rate limit that takes the count to 6 ends the fetch with the error of
    the rate limits.  The same holds in the loop from any count of
    [retries]. *)
Theorem fetch_server_error_backoff :
  (forall (set_code : str) (errors : list Response) (last : Response)
          (rest : list HttpAnswer),
      Forall server_error errors ->
      (length errors <= 5)%nat ->
      is_last last ->
      fetch_scryfall_cards (List.map Answer errors ++ Answer last :: rest)
        set_code =
        (backoff_trace SCRYFALL_SEARCH_ENDPOINT (Some (lit "set:" ++ set_code))
           0 (length errors)
           ++ [EvHttpGet SCRYFALL_SEARCH_ENDPOINT
                 (Some (lit "set:" ++ set_code))],
         Some (Ok (fold_left fetch_scryfall_cards_add (data (json last)) ∅))))
  /\ (forall (set_code : str) (errors : list Response) (response : Response)
             (rest : list HttpAnswer),
         Forall server_error errors ->
         length errors = 5%nat ->
         server_error response ->
         fetch_scryfall_cards
           (List.map Answer errors ++ Answer response :: rest) set_code =
           (backoff_trace SCRYFALL_SEARCH_ENDPOINT
              (Some (lit "set:" ++ set_code)) 0 (length errors)
              ++ [EvHttpGet SCRYFALL_SEARCH_ENDPOINT
                    (Some (lit "set:" ++ set_code))],
            Some (Raise (SheetSyncError
                           (lit "Scryfall returned "
                              ++ str_of_int (status_code response)
                              ++ lit " repeatedly. Aborting.")))))
  /\ (forall (set_code : str) (errors limits : list Response)
             (waits : list Z) (rest : list HttpAnswer),
         Forall server_error errors ->
         Forall2 rate_limited limits waits ->
         (length errors + length limits = 6)%nat ->
         limits <> [] ->
         fetch_scryfall_cards
           (List.map Answer errors ++ List.map Answer limits ++ rest)
           set_code =
           (backoff_trace SCRYFALL_SEARCH_ENDPOINT
              (Some (lit "set:" ++ set_code)) 0 (length errors)
              ++ retry_trace SCRYFALL_SEARCH_ENDPOINT
                   (Some (lit "set:" ++ set_code)) waits,
            Some (Raise (SheetSyncError
                           (lit "Exceeded retry attempts due to Scryfall rate limits.")))))
  /\ (forall (url : str) (params : option str) (retries : Z)
             (cards : gmap (list N) CardRecord) (rest : list HttpAnswer)
             (errors : list Response),
         url <> [] ->
         0 <= retries ->
         Forall server_error errors ->
         retries + Z.of_nat (length errors) <= 5 ->
         fetch_scryfall_cards_while (List.map Answer errors ++ rest) (Some url)
           params retries cards =
         prepend (backoff_trace url params retries (length errors))
           (fetch_scryfall_cards_while rest (Some url) params
              (retries + Z.of_nat (length errors)) cards)
         /\ (forall response,
                server_error response ->
                retries + Z.of_nat (length errors) = 5 ->
                fetch_scryfall_cards_while
                  (List.map Answer errors ++ Answer response :: rest) (Some url)
                  params retries cards =
                (backoff_trace url params retries (length errors)
                   ++ [EvHttpGet url (sent_params url params)],
                 Some (Raise (SheetSyncError
                                (lit "Scryfall returned "
                                   ++ str_of_int (status_code response)
                                   ++ lit " repeatedly. Aborting.")))))
         /\ (forall limits waits,
                Forall2 rate_limited limits waits ->
                retries + Z.of_nat (length errors) + Z.of_nat (length limits)
                  = 6 ->
                limits <> [] ->
                fetch_scryfall_cards_while
                  (List.map Answer errors ++ List.map Answer limits ++ rest)
                  (Some url) params retries cards =
                (backoff_trace url params retries (length errors)
                   ++ retry_trace url params waits,
                 Some (Raise (SheetSyncError
                                (lit "Exceeded retry attempts due to Scryfall rate limits.")))))).
Proof.
  assert (Hloop : forall url params retries cards rest errors response,
    url <> [] -> 0 <= retries -> Forall server_error errors ->
    server_error response ->
    retries + Z.of_nat (length errors) = 5 ->
    fetch_scryfall_cards_while
      (List.map Answer errors ++ Answer response :: rest) (Some url)
      params retries cards =
    (backoff_trace url params retries (length errors)
       ++ [EvHttpGet url (sent_params url params)],
     Some (Raise (SheetSyncError
                    (lit "Scryfall returned "
                       ++ str_of_int (status_code response)
                       ++ lit " repeatedly. Aborting."))))).
  { intros url params retries cards rest errors response Hurl Hretries
      Herrors Hs Hfive.
    rewrite fetch_while_backoff by (assumption || lia).
    rewrite fetch_while_server_error by (assumption || lia).
    destruct (Z.gtb_spec (retries + Z.of_nat (length errors) + 1) 5)
      as [_|Hle']; [|lia].
    unfold prepend. cbn [fst snd]. reflexivity. }
  assert (Hquery : forall set_code,
    sent_params SCRYFALL_SEARCH_ENDPOINT (Some (lit "set:" ++ set_code)) =
      Some (lit "set:" ++ set_code))
    by (intros set_code; unfold sent_params; now case_decide).
  split; [|split; [|split]].
  - intros set_code errors last rest Herrors Hfive Hlast.
    unfold fetch_scryfall_cards.
    rewrite fetch_while_backoff by (assumption || discriminate || lia).
    rewrite fetch_while_last by (assumption || discriminate).
    unfold prepend. cbn [fst snd]. now rewrite Hquery.
  - intros set_code errors response rest Herrors Hfive Hs.
    unfold fetch_scryfall_cards.
    rewrite Hloop by (assumption || discriminate || lia).
    now rewrite Hquery.
  - intros set_code errors limits waits rest Herrors Hlimits Hsix Hne.
    unfold fetch_scryfall_cards.
    assert (Hpos : (0 < length limits)%nat)
      by (destruct limits; [congruence|simpl; lia]).
    rewrite fetch_while_backoff by (assumption || discriminate || lia).
    rewrite (fetch_while_sixth_rate_limit _ _ _ _ limits waits)
      by (assumption || discriminate || lia).
    reflexivity.
  - intros url params retries cards rest errors Hurl Hretries Herrors Hle.
    split; [now apply fetch_while_backoff|]. split.
    + intros response Hs Hfive. now apply Hloop.
    + intros limits waits Hlimits Hsix Hne.
      rewrite fetch_while_backoff by assumption.
      now rewrite (fetch_while_sixth_rate_limit _ _ _ _ limits waits)
        by assumption.
Qed.

Lemma fetch_server_error_backoff_witness :
  let errors := repeat (mkResponse 503 None [] (mkPayload [] false None)) 5 in
  fetch_scryfall_cards
    (List.map Answer errors
       ++ Answer (mkResponse 500 None [] (mkPayload [] false None)) :: [])
    (lit "tla") =
  (backoff_trace SCRYFALL_SEARCH_ENDPOINT (Some (lit "set:" ++ lit "tla")) 0
     (length errors)
     ++ [EvHttpGet SCRYFALL_SEARCH_ENDPOINT (Some (lit "set:" ++ lit "tla"))],
   Some (Raise (SheetSyncError
                  (lit "Scryfall returned " ++ str_of_int 500
                     ++ lit " repeatedly. Aborting.")))).
Proof.
  intros errors.
  apply (proj1 (proj2 fetch_server_error_backoff) (lit "tla") errors
           (mkResponse 500 None [] (mkPayload [] false None)) []).
  - unfold errors. simpl. repeat constructor; unfold server_error; simpl; lia.
  - reflexivity.
  - unfold server_error. simpl. lia.
Defined.

Lemma fetch_while_then_fails pages answer msg rest url params retries cards :
  url <> [] ->
  Forall (fun response => exists next, continues response next) pages ->
  fails_at_once answer msg ->
  fetch_scryfall_cards_while (List.map Answer pages ++ answer :: rest)
    (Some url) params retries cards =
  (EvHttpGet url (sent_params url params)
     :: List.map (fun response =>
                    EvHttpGet (default [] (next_page (json response))) None)
          pages,
   Some (Raise (SheetSyncError msg))).
Proof.
  intros Hurl Hpages Hfail. revert url params retries cards Hurl.
  induction Hpages as [|page pages (next & Hs' & Hmore & Hnext & Hne) _ IH];
    intros url params retries cards Hurl.
  - cbn [List.map app]. destruct url as [|c url]; [congruence|].
    cbn [fetch_scryfall_cards_while].
    destruct answer as [response|exc]; simpl in Hfail.
    + destruct Hfail as (Hrange & Hnot & ->).
      rewrite (proj2 (Z.eqb_neq (status_code response) 429)) by lia.
      rewrite (proj2 (Z.leb_gt 500 (status_code response))) by lia.
      rewrite (proj2 (Z.leb_le 400 (status_code response))) by lia.
      rewrite (proj2 (Z.ltb_lt (status_code response) 600)) by lia.
      reflexivity.
    + now subst msg.
  - cbn [List.map app].
    rewrite fetch_while_success by assumption. cbv zeta.
    rewrite Hmore, Hnext, IH by assumption.
    unfold prepend. simpl. do 3 f_equal. unfold sent_params. now case_decide.
Qed.

Lemma fetch_while_fails url params retries cards answer msg rest :
  url <> [] ->
  fails_at_once answer msg ->
  fetch_scryfall_cards_while (answer :: rest) (Some url) params retries cards =
  ([EvHttpGet url (sent_params url params)],
   Some (Raise (SheetSyncError msg))).
Proof.
  intros Hurl Hfail.
  exact (fetch_while_then_fails [] answer msg rest url params retries cards
           Hurl (List.Forall_nil _) Hfail).
Qed.

(** A request that does not go through, or an answer with a status from
    400 to 499 other than 429, ends the loop with its error after that
    one request, whatever the count of retries and the records read so
    far.  So in a whole fetch, after any pages, each with its rate
    limits, and after up to five more rate limits that were waited for,
    such an answer ends the fetch with its error: the pages read before
    it are lost, and the answers after it are not asked for. *)
Theorem fetch_fails_at_once :
  (forall (url : str) (params : option str) (retries : Z)
          (cards : gmap (list N) CardRecord) (answer : HttpAnswer)
          (msg : str) (rest : list HttpAnswer),
      url <> [] ->
      fails_at_once answer msg ->
      fetch_scryfall_cards_while (answer :: rest) (Some url) params retries
        cards =
        ([EvHttpGet url (sent_params url params)],
         Some (Raise (SheetSyncError msg))))
  /\ (forall (set_code : str) (attempts : list Attempt)
             (limits : list Response) (waits : list Z) (answer : HttpAnswer)
             (msg : str) (rest : list HttpAnswer),
         Forall (fun attempt =>
                   retried attempt
                   /\ exists next, continues (page attempt) next)
           attempts ->
         Forall2 rate_limited limits waits ->
         (length limits <= 5)%nat ->
         fails_at_once answer msg ->
         fetch_scryfall_cards
           (flat_map attempt_answers attempts
              ++ List.map Answer limits ++ answer :: rest)
           set_code =
           (let query := Some (lit "set:" ++ set_code) in
            let url := (attempts_end SCRYFALL_SEARCH_ENDPOINT query attempts).1 in
            let params :=
              (attempts_end SCRYFALL_SEARCH_ENDPOINT query attempts).2 in
            attempts_trace SCRYFALL_SEARCH_ENDPOINT query attempts
              ++ retry_trace url params waits
              ++ [EvHttpGet url (sent_params url params)],
            Some (Raise (SheetSyncError msg)))).
Proof.
  split; [intros; now apply fetch_while_fails|].
  intros set_code attempts limits waits answer msg rest Hattempts Hlimits
    Hfive Hfail.
  unfold fetch_scryfall_cards.
  destruct (fetch_while_attempts attempts
              (List.map Answer limits ++ answer :: rest)
              SCRYFALL_SEARCH_ENDPOINT (Some (lit "set:" ++ set_code)) ∅)
    as [Hend ->]; [discriminate|assumption|].
  rewrite (fetch_while_retries _ _ _ _ _ waits) by (assumption || lia).
  rewrite (fetch_while_fails _ _ _ _ answer msg) by assumption.
  unfold prepend. cbn [fst snd]. reflexivity.
Qed.

Lemma fetch_fails_at_once_witness :
  let first :=
    mkAttempt [] []
      (mkResponse 200 None []
         (mkPayload [mkCardJson (Some (lit "Aang")) (Some (lit "mythic"))]
            true (Some (lit "https://api.scryfall.com/cards/search?page=2")))) in
  let limits :=
    [mkResponse 429 None [] (mkPayload [] false None);
     mkResponse 429 (Some (IntText 7)) [] (mkPayload [] false None)] in
  let answer :=
    Answer (mkResponse 404 None (lit "not found") (mkPayload [] false None)) in
  fetch_scryfall_cards
    (flat_map attempt_answers [first] ++ List.map Answer limits ++ answer :: [])
    (lit "tla") =
  ([EvHttpGet SCRYFALL_SEARCH_ENDPOINT (Some (lit "set:tla"));
    EvHttpGet (lit "https://api.scryfall.com/cards/search?page=2") None;
    EvSleep 2;
    EvHttpGet (lit "https://api.scryfall.com/cards/search?page=2") None;
    EvSleep 7;
    EvHttpGet (lit "https://api.scryfall.com/cards/search?page=2") None],
   Some (Raise (SheetSyncError
                  (lit "Scryfall request failed with 404: not found")))).
Proof.
  intros first limits answer.
  apply (proj2 fetch_fails_at_once (lit "tla") [first] limits [2; 7] answer
           (lit "Scryfall request failed with 404: not found") []).
  - constructor; [|constructor]. split.
    + split; [constructor|simpl; lia].
    + exists (lit "https://api.scryfall.com/cards/search?page=2").
      unfold continues, success_status. simpl.
      repeat split; [lia|discriminate].
  - apply List.Forall2_cons;
      [split; [reflexivity|split; [unfold MAX_WAIT; lia|now left]]|].
    apply List.Forall2_cons;
      [split; [reflexivity|split; [unfold MAX_WAIT; lia|now right]]|].
    apply List.Forall2_nil.
  - simpl. lia.
  - unfold answer, fails_at_once. cbn [status_code text].
    split; [lia|split; [lia|reflexivity]].
Defined.

(** ** Stripping twice, and the keys of the catalog *)

Lemma lstrip_idem s : lstrip (lstrip s) = lstrip s.
Proof.
  induction s as [|c s IH]; [reflexivity|]. simpl.
  destruct (isspace c) eqn:E; [exact IH|]. simpl. now rewrite E.
Qed.

Lemma lstrip_head_cases s :
  lstrip s = [] \/ exists c t, lstrip s = c :: t /\ isspace c = false.
Proof.
  induction s as [|c s IH]; [now left|]. simpl.
  destruct (isspace c) eqn:E; [exact IH|]. right. eauto.
Qed.

Lemma lstrip_snoc s c :
  isspace c = false -> exists u, lstrip (s ++ [c]) = u ++ [c].
Proof.
  intros Hc. induction s as [|d s (u & IH)]; simpl.
  - rewrite Hc. now exists [].
  - destruct (isspace d); [now exists u|]. now exists (d :: s).
Qed.

Lemma strip_idem s : strip (strip s) = strip s.
Proof.
  unfold strip, rstrip.
  destruct (lstrip_head_cases s) as [E|(c & t & E & Hc)]; rewrite E;
    [reflexivity|].
  change (rev (c :: t)) with (rev t ++ [c]).
  destruct (lstrip_snoc (rev t) c Hc) as [u Hu].
  assert (Hidem : lstrip (u ++ [c]) = u ++ [c])
    by (rewrite <- Hu; apply lstrip_idem).
  rewrite Hu, rev_app_distr.
  change (rev [c] ++ rev u) with (c :: rev u).
  rewrite (lstrip_head c (rev u) Hc).
  change (rev (c :: rev u)) with (rev (rev u) ++ [c]).
  now rewrite rev_involutive, Hidem, rev_app_distr.
Qed.

Lemma fetch_add_keys_stripped cards card :
  catalog_keys_stripped cards ->
  catalog_keys_stripped (fetch_scryfall_cards_add cards card).
Proof.
  intros H. unfold fetch_scryfall_cards_add.
  destruct (json_rarity card) as [rarity|]; [|exact H].
  destruct (strip (default [] (json_name card))) as [|c key] eqn:E;
    [exact H|].
  destruct rarity as [|r rarity]; [exact H|]. simpl.
  intros key' card'. rewrite lookup_insert. case_decide as Hk.
  - intros [= <-]. subst key'. simpl. repeat split; try discriminate.
    rewrite <- E. apply strip_idem.
  - apply H.
Qed.

Lemma fetch_fold_keys_stripped records cards :
  catalog_keys_stripped cards ->
  catalog_keys_stripped (fold_left fetch_scryfall_cards_add records cards).
Proof.
  revert cards. induction records as [|card records IH]; intros cards H;
    [exact H|].
  simpl. apply IH. now apply fetch_add_keys_stripped.
Qed.

Lemma fetch_while_keys_stripped answers url params retries cards trace result :
  catalog_keys_stripped cards ->
  fetch_scryfall_cards_while answers url params retries cards =
    (trace, Some (Ok result)) ->
  catalog_keys_stripped result.
Proof.
  revert url params retries cards trace.
  induction answers as [|answer answers IH];
    intros url params retries cards trace Hcards Hrun.
  - destruct url as [[|c url]|]; simpl in Hrun; try discriminate;
      now injection Hrun as _ <-.
  - destruct url as [[|c url]|];
      try (simpl in Hrun; now injection Hrun as _ <-).
    cbn [fetch_scryfall_cards_while] in Hrun.
    apply (f_equal snd) in Hrun. cbn [snd] in Hrun.
    apply bind_result in Hrun as (_ & _ & Hrun).
    destruct answer as [response|exc]; [|discriminate].
    destruct (status_code response =? 429).
    { apply bind_result in Hrun as (wait & _ & Hrun).
      apply bind_result in Hrun as (_ & _ & Hrun).
      destruct (retries + 1 >? 5); [discriminate|].
      destruct (fetch_scryfall_cards_while answers (Some (c :: url)) params
                  (retries + 1) cards) as [t r] eqn:E.
      simpl in Hrun. subst r. eapply IH; eassumption. }
    destruct (_ && _).
    { destruct (retries + 1 >? 5); [discriminate|].
      apply bind_result in Hrun as (_ & _ & Hrun).
      destruct (fetch_scryfall_cards_while answers (Some (c :: url)) params
                  (retries + 1) cards) as [t r] eqn:E.
      simpl in Hrun. subst r. eapply IH; eassumption. }
    destruct (_ && _); [discriminate|]. cbv zeta in Hrun.
    pose proof (fetch_fold_keys_stripped (data (json response)) cards Hcards)
      as Hfold.
    destruct (has_more (json response)).
    + destruct (fetch_scryfall_cards_while answers (next_page (json response))
                  None 0 _) as [t r] eqn:E.
      simpl in Hrun. subst r. eapply IH; eassumption.
    + simpl in Hrun. now injection Hrun as <-.
Qed.

(** Whatever Scryfall answers, a catalog that [fetch_scryfall_cards]
    returns is keyed by the names of its records, and these names are not
    empty and have no white space around them; no record has an empty
    rarity. *)
Theorem fetched_catalog_keys :
  forall (answers : list HttpAnswer) (set_code : str) (trace : list Event)
         (cards : gmap (list N) CardRecord),
    fetch_scryfall_cards answers set_code = (trace, Some (Ok cards)) ->
    catalog_keys_stripped cards.
Proof.
  intros answers set_code trace cards H. unfold fetch_scryfall_cards in H.
  eapply fetch_while_keys_stripped; [|exact H].
  intros key card Hlookup. now rewrite lookup_empty in Hlookup.
Qed.

Lemma fetched_catalog_keys_witness :
  catalog_keys_stripped
    (<[lit "Zuko" := mkCardRecord (lit "Zuko") (lit "common")]> ∅).
Proof.
  apply (fetched_catalog_keys
           [Answer (mkResponse 200 None []
                      (mkPayload [mkCardJson (Some (lit "  Zuko "))
                                    (Some (lit "common"));
                                  mkCardJson (Some (lit "   "))
                                    (Some (lit "rare"))] false None))]
           (lit "tla")
           [EvHttpGet SCRYFALL_SEARCH_ENDPOINT (Some (lit "set:tla"))]).
  reflexivity.
Defined.

(** ** Reconciliation: what is matched, and how much *)

Lemma reconcile_row_blank cards row_index card_name :
  strip card_name = [] -> reconcile [(row_index, card_name)] cards = ([], []).
Proof. intros H. unfold reconcile. simpl. now rewrite H. Qed.

Lemma reconcile_row_named cards row_index card_name :
  strip card_name <> [] ->
  reconcile [(row_index, card_name)] cards =
    match cards !! strip card_name with
    | Some card =>
        match rarity_code card with
        | Some code => ([(row_index, code)], [])
        | None => ([], [card_name])
        end
    | None => ([], [card_name])
    end.
Proof.
  intros H. unfold reconcile. simpl.
  destruct (strip card_name) as [|c s] eqn:E; [congruence|]. simpl.
  destruct (cards !! (c :: s)) as [card|]; [|reflexivity].
  pose proof (rarity_code_not_empty card) as Hcode.
  destruct (rarity_code card) as [[|d code]|]; [congruence|reflexivity..].
Qed.

Lemma rarity_code_letters card code :
  rarity_code card = Some code ->
  code = lit "M" \/ code = lit "R" \/ code = lit "U" \/ code = lit "C".
Proof.
  unfold rarity_code. rewrite RARITY_MAP_lookup.
  repeat case_decide; intros [= <-]; auto.
Qed.

(** The updates are exactly the rows whose stripped text is a name of the
    catalog with a rarity that has a code, each with that code, which is
    one of M, R, U and C; the missing names are exactly the texts of the
    other rows that are not blank. *)
Theorem reconcile_membership :
  forall (rows : list (Z * str)) (cards : gmap (list N) CardRecord),
    (forall row_index code,
        In (row_index, code) (reconcile rows cards).1 <->
        exists card_name card,
          In (row_index, card_name) rows
          /\ strip card_name <> []
          /\ cards !! strip card_name = Some card
          /\ rarity_code card = Some code)
    /\ (forall card_name,
           In card_name (reconcile rows cards).2 <->
           exists row_index,
             In (row_index, card_name) rows
             /\ strip card_name <> []
             /\ (cards !! strip card_name = None
                 \/ exists card, cards !! strip card_name = Some card
                                 /\ rarity_code card = None))
    /\ Forall (fun update =>
                 update.2 = lit "M" \/ update.2 = lit "R"
                 \/ update.2 = lit "U" \/ update.2 = lit "C")
         (reconcile rows cards).1.
Proof.
  intros rows cards.
  assert (Hup : forall row_index code,
    In (row_index, code) (reconcile rows cards).1 <->
    exists card_name card,
      In (row_index, card_name) rows
      /\ strip card_name <> []
      /\ cards !! strip card_name = Some card
      /\ rarity_code card = Some code).
  { intros row_index code. unfold reconcile at 1.
    rewrite sync_sheet_for_flat_map. simpl. rewrite in_flat_map. split.
    - intros ([i t] & Hin & Hrow).
      destruct (not_str (strip t)) eqn:Eb.
      + rewrite reconcile_row_blank in Hrow by (now destruct (strip t)).
        destruct Hrow.
      + assert (Hne : strip t <> []) by (now destruct (strip t)).
        rewrite reconcile_row_named in Hrow by assumption.
        destruct (cards !! strip t) as [card|] eqn:Ec; [|destruct Hrow].
        destruct (rarity_code card) as [code'|] eqn:Er; [|destruct Hrow].
        destruct Hrow as [[= <- <-]|[]]. exists t, card. auto.
    - intros (t & card & Hin & Hne & Hc & Hr).
      exists (row_index, t). split; [assumption|].
      rewrite reconcile_row_named, Hc, Hr by assumption. now left. }
  split; [exact Hup|]. split.
  - intros card_name. unfold reconcile at 1.
    rewrite sync_sheet_for_flat_map. simpl. rewrite in_flat_map. split.
    + intros ([i t] & Hin & Hrow).
      destruct (not_str (strip t)) eqn:Eb.
      * rewrite reconcile_row_blank in Hrow by (now destruct (strip t)).
        destruct Hrow.
      * assert (Hne : strip t <> []) by (now destruct (strip t)).
        rewrite reconcile_row_named in Hrow by assumption.
        destruct (cards !! strip t) as [card|] eqn:Ec.
        -- destruct (rarity_code card) as [code'|] eqn:Er; [destruct Hrow|].
           destruct Hrow as [<-|[]]. exists i. repeat split; eauto.
        -- destruct Hrow as [<-|[]]. exists i. repeat split; auto.
    + intros (i & Hin & Hne & Hcase).
      exists (i, card_name). split; [assumption|].
      rewrite reconcile_row_named by assumption.
      destruct Hcase as [->|(card & -> & ->)]; now left.
  - apply Forall_forall. intros [i code] Hin.
    apply list_elem_of_In, Hup in Hin as (t & card & _ & _ & _ & Hr).
    simpl. now apply rarity_code_letters in Hr.
Qed.

(** Every row that is not blank is accounted for once: the number of
    updates and the number of missing names add up to the number of rows
    whose stripped text is not empty. *)
Theorem reconcile_counts :
  forall (rows : list (Z * str)) (cards : gmap (list N) CardRecord),
    (length (reconcile rows cards).1 + length (reconcile rows cards).2)%nat =
      length (List.filter has_name rows).
Proof.
  intros rows cards. unfold reconcile. rewrite sync_sheet_for_flat_map. simpl.
  induction rows as [|[i t] rows IH]; [reflexivity|].
  cbn [flat_map List.filter]. rewrite !length_app.
  unfold has_name at 1. simpl snd.
  destruct (not_str (strip t)) eqn:Eb; simpl negb; cbv iota.
  - rewrite reconcile_row_blank by (now destruct (strip t)). simpl. exact IH.
  - rewrite reconcile_row_named by (now destruct (strip t)).
    destruct (cards !! strip t) as [card|];
      [destruct (rarity_code card)|]; simpl; lia.
Qed.

(** The white space around the text of a row plays no part in the
    matching: the updates are those of the stripped texts.  Only the
    missing names keep the text as it was read. *)
Theorem reconcile_ignores_surrounding_space :
  forall (rows : list (Z * str)) (cards : gmap (list N) CardRecord),
    (reconcile rows cards).1 =
      (reconcile (List.map (fun row => (row.1, strip row.2)) rows) cards).1
    /\ List.map strip (reconcile rows cards).2 =
         (reconcile (List.map (fun row => (row.1, strip row.2)) rows) cards).2.
Proof.
  intros rows cards. unfold reconcile. rewrite !sync_sheet_for_flat_map. simpl.
  induction rows as [|[i t] rows [IH1 IH2]]; [now split|].
  cbn [List.map flat_map fst snd]. rewrite map_app, <- IH1, <- IH2.
  assert (Hrow : (reconcile [(i, t)] cards).1 = (reconcile [(i, strip t)] cards).1
                 /\ List.map strip (reconcile [(i, t)] cards).2 =
                      (reconcile [(i, strip t)] cards).2).
  { destruct (not_str (strip t)) eqn:Eb.
    - rewrite !reconcile_row_blank;
        [now split|rewrite strip_idem|]; now destruct (strip t).
    - assert (Hne : strip t <> []) by (now destruct (strip t)).
      rewrite !reconcile_row_named by (now rewrite ?strip_idem).
      rewrite strip_idem.
      destruct (cards !! strip t) as [card|];
        [destruct (rarity_code card)|]; now split. }
  destruct Hrow as [-> ->]. now split.
Qed.

(** ** A run of [sync_sheet] that writes *)

Lemma write_rarities_run service spreadsheet_id worksheet target_column updates :
  write_rarities service spreadsheet_id worksheet target_column updates =
    match updates with
    | [] => ([], Some (Ok tt))
    | _ =>
        ([EvSheetWrite spreadsheet_id
            (write_data worksheet target_column updates)],
         match write_answer service with
         | Returned _ => Some (Ok tt)
         | HttpError exc =>
             Some (Raise (SheetSyncError
                            (lit "Failed to update sheet values: " ++ exc)))
         end)
    end.
Proof.
  unfold write_rarities, write_data.
  destruct updates as [|update updates]; [reflexivity|].
  assert (E : forall l : list (Z * str),
    List.map (fun '(row_index, rarity_code) =>
                (worksheet ++ lit "!" ++ target_column ++ str_of_int row_index,
                 rarity_code)) l =
    List.map (fun update =>
                (worksheet ++ lit "!" ++ target_column ++ str_of_int update.1,
                 update.2)) l).
  { intros l. apply List.map_ext. now intros [i c]. }
  rewrite E. now destruct (write_answer service).
Qed.

(** [sync_sheet], case by case. *)
Lemma sync_sheet_run spreadsheet_id worksheet name_column start_row cards
    service dry :
  sync_sheet spreadsheet_id worksheet name_column start_row cards service dry =
    if start_row <? 1
    then ([], Some (Raise (SheetSyncError (lit "start_row must be >= 1"))))
    else
      let read := EvSheetRead spreadsheet_id
                    (read_range worksheet name_column start_row) in
      match read_answer service with
      | HttpError exc =>
          ([read],
           Some (Raise (SheetSyncError
                          (lit "Failed to read sheet values: " ++ exc))))
      | Returned values =>
          match column_to_index name_column with
          | Raise e => ([read], Some (Raise e))
          | Ok index =>
              match index_to_column (index + 1) with
              | None => ([read], None)
              | Some (Raise e) => ([read], Some (Raise e))
              | Some (Ok target) =>
                  let outcome :=
                    reconcile (read_sheet_rows_for values start_row []) cards in
                  let result :=
                    mkSyncResult (Z.of_nat (length outcome.1)) outcome.2 in
                  if dry
                  then (read :: List.map
                                  (fun update => EvPrint (preview_line update))
                                  outcome.1,
                        Some (Ok result))
                  else
                    match outcome.1 with
                    | [] => ([read], Some (Ok result))
                    | _ =>
                        ([read;
                          EvSheetWrite spreadsheet_id
                            (write_data worksheet target outcome.1)],
                         match write_answer service with
                         | Returned _ => Some (Ok result)
                         | HttpError exc =>
                             Some (Raise (SheetSyncError
                                            (lit "Failed to update sheet values: "
                                               ++ exc)))
                         end)
                    end
              end
          end
      end.
Proof.
  destruct dry; [apply sync_sheet_dry_run|].
  unfold sync_sheet, read_sheet_rows, read_range.
  unfold mbind, Eff_bind, emit, raise, lift, lift_fuel, mret, Eff_ret.
  destruct (start_row <? 1); [reflexivity|].
  destruct (read_answer service) as [values|exc]; [|reflexivity].
  destruct (column_to_index name_column) as [index|e]; [|reflexivity].
  cbv beta iota zeta.
  destruct (index_to_column (index + 1)) as [[target|e]|]; try reflexivity.
  destruct (reconcile (read_sheet_rows_for values start_row []) cards)
    as [updates missing].
  rewrite write_rarities_run. cbn [fst snd].
  destruct updates as [|update updates]; [reflexivity|].
  now destruct (write_answer service).
Qed.

(** In a run that is not dry, with a start row of 1 at least, a sheet that
    is read and a valid column, the column written is the one to the
    right of the names.  When there is no update the service is not
    called again; otherwise there is one batch update, with one range and
    code for each update in their order, and the run fails when the
    service refuses it. *)
Theorem real_run_writes_once :
  forall (spreadsheet_id worksheet name_column : str) (start_row : Z)
         (cards : gmap (list N) CardRecord) (service : Service)
         (values : list (list str)) (index : Z),
    1 <= start_row ->
    read_answer service = Returned values ->
    column_to_index name_column = Ok index ->
    exists target,
      index_to_column (index + 1) = Some (Ok target)
      /\ column_to_index target = Ok (index + 1)
      /\ let outcome :=
           reconcile (read_sheet_rows_for values start_row []) cards in
         let result := mkSyncResult (Z.of_nat (length outcome.1)) outcome.2 in
         let read := EvSheetRead spreadsheet_id
                       (read_range worksheet name_column start_row) in
         sync_sheet spreadsheet_id worksheet name_column start_row cards
           service false =
           match outcome.1 with
           | [] => ([read], Some (Ok result))
           | _ =>
               ([read;
                 EvSheetWrite spreadsheet_id
                   (write_data worksheet target outcome.1)],
                match write_answer service with
                | Returned _ => Some (Ok result)
                | HttpError exc =>
                    Some (Raise (SheetSyncError
                                   (lit "Failed to update sheet values: "
                                      ++ exc)))
                end)
           end.
Proof.
  intros spreadsheet_id worksheet name_column start_row cards service values
    index Hrow Hread Hcol.
  pose proof (column_to_index_positive _ _ Hcol) as Hpos.
  destruct (index_to_column_while_digits (Z.to_nat (index + 1)) (index + 1) [])
    as (chars & Hrun & HAZ & Hval & Hne); [lia|].
  assert (Hcolumn : index_to_column (index + 1) = Some (Ok (rev chars))).
  { unfold index_to_column, index_to_column_fuel.
    destruct (Z.ltb_spec (index + 1) 1) as [Hlt|_]; [lia|]. now rewrite Hrun. }
  exists (rev chars). split; [exact Hcolumn|]. split.
  - rewrite column_to_index_AZ, Hval; [reflexivity| |now apply Forall_rev].
    intros E. apply (f_equal (@rev N)) in E. rewrite rev_involutive in E.
    apply Hne; [lia|exact E].
  - cbv zeta. rewrite sync_sheet_run.
    rewrite (proj2 (Z.ltb_ge start_row 1) Hrow), Hread, Hcol, Hcolumn.
    reflexivity.
Qed.

Lemma real_run_writes_once_witness :
  exists target,
    index_to_column (26 + 1) = Some (Ok target)
    /\ column_to_index target = Ok (26 + 1)
    /\ let service :=
         mkService (Returned (lit "ID1"))
           (Returned [[lit "Aang"]; []; [lit " Zuko "]]) (Returned tt) in
       let outcome :=
         reconcile (read_sheet_rows_for [[lit "Aang"]; []; [lit " Zuko "]] 2 [])
           example_catalog in
       let result := mkSyncResult (Z.of_nat (length outcome.1)) outcome.2 in
       let read := EvSheetRead (lit "ID1") (read_range (lit "S") (lit "Z") 2) in
       sync_sheet (lit "ID1") (lit "S") (lit "Z") 2 example_catalog service
         false =
         match outcome.1 with
         | [] => ([read], Some (Ok result))
         | _ =>
             ([read;
               EvSheetWrite (lit "ID1") (write_data (lit "S") target outcome.1)],
              match write_answer service with
              | Returned _ => Some (Ok result)
              | HttpError exc =>
                  Some (Raise (SheetSyncError
                                 (lit "Failed to update sheet values: " ++ exc)))
              end)
         end.
Proof.
  apply (real_run_writes_once (lit "ID1") (lit "S") (lit "Z") 2 example_catalog
           (mkService (Returned (lit "ID1"))
              (Returned [[lit "Aang"]; []; [lit " Zuko "]]) (Returned tt))
           [[lit "Aang"]; []; [lit " Zuko "]] 26).
  - lia.
  - reflexivity.
  - reflexivity.
Defined.

(** A dry run tells what the run would return: when the service accepts
    the batch update, [sync_sheet] ends in the same way, with the same
    count and missing names, with and without [dry_run]. *)
Theorem dry_run_same_result :
  forall (spreadsheet_id worksheet name_column : str) (start_row : Z)
         (cards : gmap (list N) CardRecord) (service : Service)
         (accepted : unit),
    write_answer service = Returned accepted ->
    (sync_sheet spreadsheet_id worksheet name_column start_row cards service
       true).2 =
    (sync_sheet spreadsheet_id worksheet name_column start_row cards service
       false).2.
Proof.
  intros spreadsheet_id worksheet name_column start_row cards service accepted
    Hwrite.
  rewrite !sync_sheet_run.
  destruct (start_row <? 1); [reflexivity|]. cbv zeta.
  destruct (read_answer service) as [values|exc]; [|reflexivity].
  destruct (column_to_index name_column) as [index|e]; [|reflexivity].
  destruct (index_to_column (index + 1)) as [[target|e]|]; try reflexivity.
  destruct (reconcile (read_sheet_rows_for values start_row []) cards).1;
    [reflexivity|].
  now rewrite Hwrite.
Qed.

Lemma dry_run_same_result_witness :
  let service :=
    mkService (Returned (lit "ID1")) (Returned [[lit "Aang"]; [lit "Bob"]])
      (Returned tt) in
  (sync_sheet (lit "ID1") (lit "S") (lit "A") 2 example_catalog service true).2 =
  (sync_sheet (lit "ID1") (lit "S") (lit "A") 2 example_catalog service false).2.
Proof.
  intros service.
  apply (dry_run_same_result (lit "ID1") (lit "S") (lit "A") 2 example_catalog
           service tt).
  reflexivity.
Defined.

(** ** A run of [main], from end to end *)

Lemma main_print_missing_run missing :
  main_print_missing missing =
    (List.map (fun name => EvPrint (lit " - " ++ name)) missing, Some (Ok tt)).
Proof.
  induction missing as [|name missing IH]; [reflexivity|].
  cbn [main_print_missing]. now rewrite IH.
Qed.

Lemma bind_Ok {A B} (t : list Event) (a : A) (f : A -> Eff B) :
  ((t, Some (Ok a)) : Eff A) ≫= f = prepend t (f a).
Proof. unfold mbind, Eff_bind, prepend. now destruct (f a). Qed.

Lemma main_report_run result :
  ((match missing_cards result with
    | [] => mret tt
    | _ =>
        emit (EvPrint (lit "The following cards were not found:"));;
        main_print_missing (missing_cards result)
    end);;
   emit (EvPrint (lit "Updated " ++ str_of_int (updated result)
                    ++ lit " rows."));;
   mret 0 : Eff Z) =
  (report_lines result, Some (Ok 0)).
Proof.
  unfold report_lines.
  destruct (missing_cards result) as [|name missing]; [reflexivity|].
  rewrite main_print_missing_run. reflexivity.
Qed.

(** [main], case by case. *)
Lemma main_run world args :
  main world args =
    match credentials world with
    | Raise (SheetSyncError exc) | Raise (GoogleAuthError exc) =>
        ([EvPrintErr (lit "Credential error: " ++ exc)], Some (Ok 1))
    | Raise e => ([], Some (Raise e))
    | Ok _ =>
        match main_resolve world args with
        | (resolved, None) => (resolved, Some (Ok 1))
        | (resolved, Some sheet_id) => main_after world args resolved sheet_id
        end
    end.
Proof.
  unfold main, main_resolve, named_sheet, main_after.
  destruct (credentials world) as [u|[exc|exc| |]]; try reflexivity.
  assert (Hrest : forall (resolved : list Event) (sheet_id : str),
    prepend resolved
      (r ← try_except (fetch_scryfall_cards (scryfall world) (set_code args));
       match r with
       | inl exc => emit (EvPrintErr exc);; mret 1
       | inr cards =>
           r ← try_except
                 (sync_sheet sheet_id (worksheet args) (column args)
                    (start_row args) cards (service world) (dry_run args));
           match r with
           | inl exc => emit (EvPrintErr exc);; mret 1
           | inr result =>
               (match missing_cards result with
                | [] => mret tt
                | _ =>
                    emit (EvPrint (lit "The following cards were not found:"));;
                    main_print_missing (missing_cards result)
                end);;
               emit (EvPrint (lit "Updated " ++ str_of_int (updated result)
                                ++ lit " rows."));;
               mret 0
           end
       end : Eff Z) =
    main_after world args resolved sheet_id).
  { intros resolved sheet_id. unfold main_after. cbv zeta.
    destruct (fetch_scryfall_cards (scryfall world) (set_code args))
      as [tf [[cards|[exc|exc| |]]|]]; try reflexivity.
    cbn [try_except fst snd]. rewrite bind_Ok. cbv beta iota.
    destruct (sync_sheet sheet_id (worksheet args) (column args)
                (start_row args) cards (service world) (dry_run args))
      as [ts [[result|[exc|exc| |]]|]]; cbn [try_except fst snd];
      rewrite ?bind_Ok; cbv beta iota; rewrite ?main_report_run;
      unfold prepend; cbn [fst snd]; now rewrite ?app_nil_r. }
  cbv zeta.
  match goal with
  | |- mbind _ (match ?s with _ => _ end) = _ =>
      destruct s as [[|c sheet_id]|]
  end.
  2: { rewrite bind_mret.
       etransitivity; [|exact (Hrest [] (c :: sheet_id))].
       now rewrite prepend_nil. }
  all: unfold create_spreadsheet;
    destruct (create_answer (service world)) as [sheet_id'|exc];
    [|reflexivity];
    match goal with
    | |- ?lhs = _ =>
        transitivity
          (prepend [EvCreateSpreadsheet (create_title args);
                    EvPrint (lit "Created spreadsheet: "
                               ++ lit "https://docs.google.com/spreadsheets/d/"
                               ++ sheet_id')]
             (r ← try_except
                    (fetch_scryfall_cards (scryfall world) (set_code args));
              match r with
              | inl exc => emit (EvPrintErr exc);; mret 1
              | inr cards =>
                  r ← try_except
                        (sync_sheet sheet_id' (worksheet args) (column args)
                           (start_row args) cards (service world)
                           (dry_run args));
                  match r with
                  | inl exc => emit (EvPrintErr exc);; mret 1
                  | inr result =>
                      (match missing_cards result with
                       | [] => mret tt
                       | _ =>
                           emit (EvPrint
                                   (lit "The following cards were not found:"));;
                           main_print_missing (missing_cards result)
                       end);;
                      emit (EvPrint (lit "Updated "
                                       ++ str_of_int (updated result)
                                       ++ lit " rows."));;
                      mret 0
                  end
              end : Eff Z))
    end;
    [|exact (Hrest _ sheet_id')];
    unfold prepend, mbind, Eff_bind, emit, mret, Eff_ret; cbn [try_except fst snd];
    match goal with
    | |- context [let '(_, _) := ?m in _] => now destruct m as [t [[a|e]|]]
    end.
Qed.

Lemma filter_none (f : Event -> bool) trace :
  Forall (fun e => f e = false) trace -> List.filter f trace = [].
Proof.
  induction 1 as [|e trace He _ IH]; [reflexivity|]. simpl. now rewrite He.
Qed.

Lemma fetch_events answers set_code :
  Forall (fun e => is_fetch_event e = true)
    (fetch_scryfall_cards answers set_code).1.
Proof. unfold fetch_scryfall_cards. now apply fetch_while_trace. Qed.

Lemma fetch_filter (f : Event -> bool) answers set_code :
  (forall e, is_fetch_event e = true -> f e = false) ->
  List.filter f (fetch_scryfall_cards answers set_code).1 = [].
Proof.
  intros H. apply filter_none.
  eapply Forall_impl; [apply fetch_events|]. exact H.
Qed.

Lemma report_lines_prints result :
  Forall (fun e => is_print e = true) (report_lines result).
Proof.
  unfold report_lines. apply Forall_app. split; [|now repeat constructor].
  destruct (missing_cards result) as [|name missing]; [constructor|].
  constructor; [reflexivity|]. apply Forall_map. now apply Forall_forall.
Qed.

(** The calls of [sync_sheet] to the service, in their order: none, a
    read, or a read and then a batch update of the same spreadsheet, the
    latter with some data and outside of a dry run only.  Its other events
    are lines on the standard output. *)
Lemma sync_sheet_calls spreadsheet_id worksheet name_column start_row cards
    service dry :
  let trace :=
    (sync_sheet spreadsheet_id worksheet name_column start_row cards service
       dry).1 in
  Forall (fun e => is_sheet_call e || is_print e = true) trace
  /\ (List.filter is_sheet_call trace = []
      \/ (exists range,
             List.filter is_sheet_call trace =
               [EvSheetRead spreadsheet_id range])
      \/ (exists range data,
             List.filter is_sheet_call trace =
               [EvSheetRead spreadsheet_id range;
                EvSheetWrite spreadsheet_id data]
             /\ data <> [] /\ dry = false)).
Proof.
  cbv zeta. rewrite sync_sheet_run.
  destruct (start_row <? 1); [split; [constructor|now left]|]. cbv zeta.
  set (read := EvSheetRead spreadsheet_id
                 (read_range worksheet name_column start_row)).
  assert (Hread : Forall (fun e => is_sheet_call e || is_print e = true) [read]
                  /\ (List.filter is_sheet_call [read] = []
                      \/ (exists range,
                             List.filter is_sheet_call [read] =
                               [EvSheetRead spreadsheet_id range])
                      \/ (exists range data,
                             List.filter is_sheet_call [read] =
                               [EvSheetRead spreadsheet_id range;
                                EvSheetWrite spreadsheet_id data]
                             /\ data <> [] /\ dry = false))).
  { split; [now repeat constructor|]. right; left. now eexists. }
  destruct (read_answer service) as [values|exc]; [|exact Hread].
  destruct (column_to_index name_column) as [index|e]; [|exact Hread].
  destruct (index_to_column (index + 1)) as [[target|e]|]; try exact Hread.
  destruct dry.
  - cbn [fst]. split.
    + constructor; [reflexivity|]. apply Forall_map. now apply Forall_forall.
    + right; left. exists (read_range worksheet name_column start_row).
      cbn [List.filter is_sheet_call is_read is_write orb read].
      f_equal. apply filter_none. apply Forall_map. now apply Forall_forall.
  - destruct (reconcile (read_sheet_rows_for values start_row []) cards).1
      as [|update updates] eqn:E; [exact Hread|].
    cbn [fst]. split; [now repeat constructor|].
    right; right. eexists _, _. split; [reflexivity|]. split; [|reflexivity].
    discriminate.
Qed.

Lemma main_resolve_cases world args :
  (exists sheet_id,
      named_sheet args = Some sheet_id
      /\ main_resolve world args = ([], Some sheet_id))
  \/ (exists sheet_id url,
         main_resolve world args =
           ([EvCreateSpreadsheet (create_title args);
             EvPrint (lit "Created spreadsheet: " ++ url)], Some sheet_id))
  \/ (exists msg,
         main_resolve world args =
           ([EvCreateSpreadsheet (create_title args); EvPrintErr msg], None)).
Proof.
  unfold main_resolve.
  destruct (named_sheet args) as [[|c sheet_id]|]; [| left; eauto |];
    (destruct (create_answer (service world)) as [sheet_id'|exc];
     [right; left; eauto|right; right; eauto]).
Qed.

Lemma named_sheet_not_empty args : named_sheet args <> Some [].
Proof.
  unfold named_sheet. destruct (sheet_url args) as [[|c url]|]; try discriminate.
  unfold parse_sheet_id. cbn [not_str]. apply search_sheet_id_not_empty.
Qed.

(** A run of [main] that ends with a status ends with 0 or 1.  With
    status 1 the last event is one line on the standard error, the only
    one of the run; with status 0 nothing goes to the standard error and
    the last line printed is the count of the rows updated. *)
Theorem main_diagnostics :
  forall (world : World) (args : Args) (status : Z),
    (main world args).2 = Some (Ok status) ->
    (status = 0
     /\ Forall (fun e => is_print_err e = false) (main world args).1
     /\ exists before count,
          (main world args).1 =
            before ++ [EvPrint (lit "Updated " ++ str_of_int count
                                  ++ lit " rows.")])
    \/ (status = 1
        /\ exists before msg,
             (main world args).1 = before ++ [EvPrintErr msg]
             /\ Forall (fun e => is_print_err e = false) before).
Proof.
  intros world args status.
  assert (Hfetch : Forall (fun e => is_print_err e = false)
                     (fetch_scryfall_cards (scryfall world) (set_code args)).1).
  { eapply Forall_impl; [apply fetch_events|]. now intros []. }
  assert (Hsync : forall sheet_id cards,
    Forall (fun e => is_print_err e = false)
      (sync_sheet sheet_id (worksheet args) (column args) (start_row args)
         cards (service world) (dry_run args)).1).
  { intros sheet_id cards.
    eapply Forall_impl; [apply sync_sheet_calls|]. now intros []. }
  assert (Hreport : forall result,
    Forall (fun e => is_print_err e = false) (report_lines result)).
  { intros result.
    eapply Forall_impl; [apply report_lines_prints|]. now intros []. }
  assert (Hafter : forall resolved sheet_id,
    Forall (fun e => is_print_err e = false) resolved ->
    (main_after world args resolved sheet_id).2 = Some (Ok status) ->
    (status = 0
     /\ Forall (fun e => is_print_err e = false)
          (main_after world args resolved sheet_id).1
     /\ exists before count,
          (main_after world args resolved sheet_id).1 =
            before ++ [EvPrint (lit "Updated " ++ str_of_int count
                                  ++ lit " rows.")])
    \/ (status = 1
        /\ exists before msg,
             (main_after world args resolved sheet_id).1 =
               before ++ [EvPrintErr msg]
             /\ Forall (fun e => is_print_err e = false) before)).
  { intros resolved sheet_id Hresolved. unfold main_after. cbv zeta.
    specialize (Hsync sheet_id).
    destruct (fetch_scryfall_cards (scryfall world) (set_code args))
      as [tf [[cards|[exc|exc| |]]|]]; cbn [fst snd] in *; try discriminate.
    - specialize (Hsync cards).
      destruct (sync_sheet sheet_id (worksheet args) (column args)
                  (start_row args) cards (service world) (dry_run args))
        as [ts [[result|[exc|exc| |]]|]]; cbn [fst snd] in *; try discriminate.
      + intros [= <-]. left. split; [reflexivity|]. split.
        * rewrite !Forall_app. auto.
        * unfold report_lines. eexists _, (updated result).
          rewrite !app_assoc. reflexivity.
      + intros [= <-]. right. split; [reflexivity|].
        exists (resolved ++ tf ++ ts), exc. split.
        * now rewrite <- !app_assoc.
        * rewrite !Forall_app. auto.
    - intros [= <-]. right. split; [reflexivity|].
      exists (resolved ++ tf), exc. split.
      + now rewrite <- !app_assoc.
      + rewrite !Forall_app. auto. }
  rewrite main_run.
  destruct (credentials world) as [u|[exc|exc| |]].
  2, 3: intros [= <-]; right; split; [reflexivity|];
        exists [], (lit "Credential error: " ++ exc); split;
        [reflexivity|constructor].
  2, 3: discriminate.
  destruct (main_resolve_cases world args)
    as [(sheet_id & _ & E)|[(sheet_id & url & E)|(msg & E)]]; rewrite E.
  - apply Hafter. constructor.
  - apply Hafter. now repeat constructor.
  - intros [= <-]. right. split; [reflexivity|].
    exists [EvCreateSpreadsheet (create_title args)], msg.
    split; [reflexivity|now repeat constructor].
Qed.

Lemma main_diagnostics_witness :
  (0 = 0
   /\ Forall (fun e => is_print_err e = false)
        (main answering_world default_args).1
   /\ exists before count,
        (main answering_world default_args).1 =
          before ++ [EvPrint (lit "Updated " ++ str_of_int count
                                ++ lit " rows.")])
  \/ (0 = 1
      /\ exists before msg,
           (main answering_world default_args).1 = before ++ [EvPrintErr msg]
           /\ Forall (fun e => is_print_err e = false) before).
Proof.
  apply (main_diagnostics answering_world default_args 0). reflexivity.
Defined.

(** In one run [main] calls the spreadsheet service at most twice on the
    sheet: a read, and after it at most one batch update, of the
    spreadsheet that was read, with some data, and never in a dry run.  It
    creates at most one spreadsheet, and none when [--sheet-url] names
    one. *)
Theorem main_sheet_calls :
  forall (world : World) (args : Args),
    (List.filter is_sheet_call (main world args).1 = []
     \/ (exists sheet_id range,
            List.filter is_sheet_call (main world args).1 =
              [EvSheetRead sheet_id range])
     \/ (exists sheet_id range data,
            List.filter is_sheet_call (main world args).1 =
              [EvSheetRead sheet_id range; EvSheetWrite sheet_id data]
            /\ data <> [] /\ dry_run args = false))
    /\ (List.filter is_create (main world args).1 = []
        \/ List.filter is_create (main world args).1 =
             [EvCreateSpreadsheet (create_title args)])
    /\ (forall sheet_id,
           named_sheet args = Some sheet_id ->
           List.filter is_create (main world args).1 = []).
Proof.
  intros world args.
  assert (Hfetch1 : List.filter is_sheet_call
                      (fetch_scryfall_cards (scryfall world) (set_code args)).1
                    = []) by (apply fetch_filter; now intros []).
  assert (Hfetch2 : List.filter is_create
                      (fetch_scryfall_cards (scryfall world) (set_code args)).1
                    = []) by (apply fetch_filter; now intros []).
  assert (Hsync2 : forall sheet_id cards,
    List.filter is_create
      (sync_sheet sheet_id (worksheet args) (column args) (start_row args)
         cards (service world) (dry_run args)).1 = []).
  { intros sheet_id cards. apply filter_none.
    eapply Forall_impl; [apply sync_sheet_calls|]. now intros []. }
  assert (Hreport1 : forall result,
    List.filter is_sheet_call (report_lines result) = []).
  { intros result. apply filter_none.
    eapply Forall_impl; [apply report_lines_prints|]. now intros []. }
  assert (Hreport2 : forall result,
    List.filter is_create (report_lines result) = []).
  { intros result. apply filter_none.
    eapply Forall_impl; [apply report_lines_prints|]. now intros []. }
  assert (Hafter : forall resolved sheet_id,
    List.filter is_sheet_call resolved = [] ->
    (List.filter is_sheet_call (main_after world args resolved sheet_id).1 = []
     \/ (exists read_id range,
            List.filter is_sheet_call
              (main_after world args resolved sheet_id).1 =
              [EvSheetRead read_id range])
     \/ (exists read_id range data,
            List.filter is_sheet_call
              (main_after world args resolved sheet_id).1 =
              [EvSheetRead read_id range; EvSheetWrite read_id data]
            /\ data <> [] /\ dry_run args = false))
    /\ List.filter is_create (main_after world args resolved sheet_id).1 =
         List.filter is_create resolved).
  { intros resolved sheet_id Hresolved. unfold main_after. cbv zeta.
    destruct (fetch_scryfall_cards (scryfall world) (set_code args))
      as [tf [[cards|[exc|exc| |]]|]]; cbn [fst snd] in *;
      rewrite ?List.filter_app, ?Hresolved, ?Hfetch1, ?Hfetch2, ?app_nil_r;
      try (split; [now left|reflexivity]).
    pose proof (sync_sheet_calls sheet_id (worksheet args) (column args)
                  (start_row args) cards (service world) (dry_run args))
      as [_ Hcalls].
    specialize (Hsync2 sheet_id cards). cbv zeta in Hcalls.
    destruct (sync_sheet sheet_id (worksheet args) (column args)
                (start_row args) cards (service world) (dry_run args))
      as [ts [[result|[exc|exc| |]]|]]; cbn [fst snd] in *;
      rewrite ?List.filter_app, ?Hresolved, ?Hfetch1, ?Hfetch2, ?Hsync2,
        ?Hreport1, ?Hreport2, ?app_nil_r; cbn [List.filter is_create app];
      rewrite ?app_nil_r;
      (split; [|reflexivity]);
      (destruct Hcalls as [->|[(range & ->)|(range & data & -> & Hd & Hdry)]];
       [now left|right; left; eauto|right; right; eauto 6]). }
  rewrite main_run.
  destruct (credentials world) as [u|[exc|exc| |]]; cbn [fst snd];
    try (split; [now left|split; [now left|reflexivity]]).
  unfold main_resolve.
  destruct (named_sheet args) as [[|c sheet_id]|] eqn:Enamed.
  - now destruct (named_sheet_not_empty args).
  - destruct (Hafter [] (c :: sheet_id) eq_refl) as [H1 H2].
    split; [exact H1|]. rewrite H2. split; [now left|reflexivity].
  - destruct (create_answer (service world)) as [sheet_id'|exc].
    + match goal with
      | |- context [main_after _ _ ?r ?s] =>
          destruct (Hafter r s eq_refl) as [H1 H2]
      end.
      split; [exact H1|]. rewrite H2. split; [now right|discriminate].
    + cbn [fst snd List.filter is_sheet_call is_read is_write is_create orb].
      split; [now left|split; [now right|discriminate]].
Qed.

Lemma main_sheet_calls_witness :
  List.filter is_create
    (main answering_world
       {| sheet_url := Some (lit "https://docs.google.com/spreadsheets/d/abc/edit");
          worksheet := lit "Sheet1";
          column := lit "A";
          start_row := 2;
          set_code := lit "tla";
          create_title := lit "T";
          dry_run := false |}).1 = [].
Proof.
  apply (proj2 (proj2 (main_sheet_calls answering_world _)) (lit "abc")).
  reflexivity.
Defined.

(** ** Runs that stop early, and runs that crash *)

Lemma fetch_while_bad_retry_after url params retries cards response e rest :
  url <> [] ->
  bad_retry_after response e ->
  fetch_scryfall_cards_while (Answer response :: rest) (Some url) params
    retries cards =
  ([EvHttpGet url (sent_params url params)], Some (Raise e)).
Proof.
  intros Hurl (Hs & Hh). destruct url as [|c url]; [congruence|].
  cbn [fetch_scryfall_cards_while]. rewrite Hs. cbn [Z.eqb Pos.eqb].
  destruct Hh as [[(raw & ->) ->]
                 |[[(seconds & -> & Hneg) ->]|[(seconds & -> & Hout) ->]]];
    [reflexivity| |]; rewrite bind_mret; unfold sleep;
    destruct (Z.ltb_spec seconds (- SLEEP_LIMIT)),
      (Z.ltb_spec SLEEP_LIMIT seconds), (Z.ltb_spec seconds 0);
    unfold SLEEP_LIMIT in *; try lia; reflexivity.
Qed.

(** When a rate limit answer comes with a [Retry-After] that cannot be
    waited for, a built-in raises: [int] raises [ValueError] for a header
    that it cannot read, and [time.sleep] raises [ValueError] for a
    negative integer down to -9223372036 and [OverflowError] for an
    integer beyond 9223372036 on either side.  The fetch ends with that
    exception after the one request, and [main], which only handles
    [SheetSyncError], ends with it too, with no status and no line on the
    standard error. *)
Theorem bad_retry_after_crashes :
  forall (world : World) (args : Args) (accepted : unit)
         (resolved : list Event) (sheet_id : str) (response : Response)
         (e : exn) (rest : list HttpAnswer),
    credentials world = Ok accepted ->
    main_resolve world args = (resolved, Some sheet_id) ->
    scryfall world = Answer response :: rest ->
    bad_retry_after response e ->
    fetch_scryfall_cards (scryfall world) (set_code args) =
      ([EvHttpGet SCRYFALL_SEARCH_ENDPOINT (Some (lit "set:" ++ set_code args))],
       Some (Raise e))
    /\ main world args =
         (resolved
            ++ [EvHttpGet SCRYFALL_SEARCH_ENDPOINT
                  (Some (lit "set:" ++ set_code args))],
          Some (Raise e)).
Proof.
  intros world args accepted resolved sheet_id response e rest Hcred Hres Hans
    Hbad.
  assert (Hfetch : fetch_scryfall_cards (scryfall world) (set_code args) =
            ([EvHttpGet SCRYFALL_SEARCH_ENDPOINT
                (Some (lit "set:" ++ set_code args))],
             Some (Raise e))).
  { unfold fetch_scryfall_cards. rewrite Hans.
    rewrite (fetch_while_bad_retry_after _ _ _ _ response e)
      by (assumption || discriminate).
    unfold sent_params. now case_decide. }
  split; [exact Hfetch|].
  assert (He : e = ValueError \/ e = OverflowError).
  { destruct Hbad as (_ & [[_ ->]|[[_ ->]|[_ ->]]]); auto. }
  rewrite main_run, Hcred, Hres. unfold main_after. cbv zeta.
  rewrite Hfetch. now destruct He as [-> | ->].
Qed.

Lemma bad_retry_after_crashes_witness :
  let world :=
    {| credentials := Ok tt;
       service := mkService (Returned (lit "ID1")) (Returned []) (Returned tt);
       scryfall :=
         [Answer (mkResponse 429 (Some (IntText 10000000000)) []
                    (mkPayload [] false None))] |} in
  let args :=
    {| sheet_url := Some (lit "https://docs.google.com/spreadsheets/d/abc/edit");
       worksheet := lit "Sheet1";
       column := lit "A";
       start_row := 2;
       set_code := lit "tla";
       create_title := lit "T";
       dry_run := false |} in
  fetch_scryfall_cards (scryfall world) (set_code args) =
    ([EvHttpGet SCRYFALL_SEARCH_ENDPOINT (Some (lit "set:" ++ set_code args))],
     Some (Raise OverflowError))
  /\ main world args =
       ([] ++ [EvHttpGet SCRYFALL_SEARCH_ENDPOINT
                 (Some (lit "set:" ++ set_code args))],
        Some (Raise OverflowError)).
Proof.
  intros world args.
  apply (bad_retry_after_crashes world args tt [] (lit "abc")
           (mkResponse 429 (Some (IntText 10000000000)) []
              (mkPayload [] false None)) OverflowError []).
  - reflexivity.
  - reflexivity.
  - reflexivity.
  - split; [reflexivity|]. right. right. split; [|reflexivity].
    exists 10000000000. split; [reflexivity|]. right.
    unfold SLEEP_LIMIT. lia.
Defined.

(** [main] stops at the first step that fails.  Without credentials it
    calls no collaborator and prints one line on the standard error; when
    the spreadsheet cannot be created it does not contact Scryfall and
    does not read any sheet; when the fetch fails it does not read or
    write any sheet.  In each case the status is 1. *)
Theorem main_stops_early :
  forall (world : World) (args : Args),
    (forall exc,
        credentials world = Raise (SheetSyncError exc)
        \/ credentials world = Raise (GoogleAuthError exc) ->
        main world args =
          ([EvPrintErr (lit "Credential error: " ++ exc)], Some (Ok 1)))
    /\ (forall accepted exc,
           credentials world = Ok accepted ->
           named_sheet args = None ->
           create_answer (service world) = HttpError exc ->
           main world args =
             ([EvCreateSpreadsheet (create_title args);
               EvPrintErr (lit "Failed to create spreadsheet: " ++ exc)],
              Some (Ok 1)))
    /\ (forall accepted resolved sheet_id trace exc,
           credentials world = Ok accepted ->
           main_resolve world args = (resolved, Some sheet_id) ->
           fetch_scryfall_cards (scryfall world) (set_code args) =
             (trace, Some (Raise (SheetSyncError exc))) ->
           main world args =
             (resolved ++ trace ++ [EvPrintErr exc], Some (Ok 1))
           /\ List.filter is_sheet_call (main world args).1 = []).
Proof.
  intros world args. split; [|split].
  - intros exc [H|H]; now rewrite main_run, H.
  - intros accepted exc Hcred Hnamed Hcreate.
    rewrite main_run, Hcred. unfold main_resolve.
    now rewrite Hnamed, Hcreate.
  - intros accepted resolved sheet_id trace exc Hcred Hres Hfetch.
    assert (Hmain : main world args =
                      (resolved ++ trace ++ [EvPrintErr exc], Some (Ok 1))).
    { rewrite main_run, Hcred, Hres. unfold main_after. cbv zeta.
      now rewrite Hfetch. }
    split; [exact Hmain|]. rewrite Hmain. cbn [fst].
    rewrite !List.filter_app.
    assert (Htrace : List.filter is_sheet_call trace = []).
    { pose proof (fetch_filter is_sheet_call (scryfall world) (set_code args))
        as H. rewrite Hfetch in H. apply H. now intros []. }
    rewrite Htrace.
    destruct (main_resolve_cases world args)
      as [(id & _ & E)|[(id & url & E)|(msg & E)]];
      rewrite Hres in E; injection E as -> _; reflexivity || discriminate.
Qed.

Lemma main_stops_early_witness :
  main {| credentials := Raise (GoogleAuthError (lit "expired"));
          service := mkService (Returned (lit "ID1")) (Returned [])
                       (Returned tt);
          scryfall := [] |} default_args =
    ([EvPrintErr (lit "Credential error: " ++ lit "expired")], Some (Ok 1)).
Proof.
  apply (proj1 (main_stops_early _ default_args) (lit "expired")).
  now right.
Defined.

(** ** The size of a column index *)

Lemma fold_column_step_bounds chars :
  Forall (fun c => is_upper_AZ c = true) chars ->
  26 ^ Z.of_nat (length chars) <= 25 * fold_left column_step chars 0 + 1
  /\ 25 * fold_left column_step chars 0
     <= 26 ^ (Z.of_nat (length chars) + 1) - 26.
Proof.
  induction chars as [|c chars IH] using rev_ind; intros H.
  - simpl. lia.
  - apply Forall_app in H as [H1 H2]. inversion H2 as [|? ? Hc _]; subst.
    apply is_upper_AZ_spec in Hc. specialize (IH H1).
    rewrite fold_left_app, length_app, Nat2Z.inj_add. cbn [fold_left length].
    set (v := fold_left column_step chars 0) in *.
    set (n := Z.of_nat (length chars)) in *.
    change (Z.of_nat 1) with 1.
    rewrite !Z.pow_add_r, Z.pow_1_r in * by lia.
    unfold column_step, ord. lia.
Qed.

(** A column of [n] letters has an index from [(26^n - 1) / 25] to
    [(26^(n+1) - 26) / 25]: one letter gives 1 to 26, two letters give 27
    to 702.  So a column with more letters always has the larger index. *)
Theorem column_index_bounds :
  forall (column : str) (index : Z),
    column_to_index column = Ok index ->
    let n := Z.of_nat (length (upper (strip column))) in
    26 ^ n <= 25 * index + 1
    /\ 25 * index <= 26 ^ (n + 1) - 26
    /\ forall other index',
         column_to_index other = Ok index' ->
         (length (upper (strip column)) < length (upper (strip other)))%nat ->
         index < index'.
Proof.
  intros column index H n.
  apply column_to_index_Ok_inv in H as (_ & HAZ & ->).
  destruct (fold_column_step_bounds _ HAZ) as [Hlow Hup].
  split; [exact Hlow|]. split; [exact Hup|].
  intros other index' H' Hlen.
  apply column_to_index_Ok_inv in H' as (_ & HAZ' & ->).
  destruct (fold_column_step_bounds _ HAZ') as [Hlow' _].
  assert (Hpow : 26 ^ (n + 1) <= 26 ^ Z.of_nat (length (upper (strip other))))
    by (apply Z.pow_le_mono_r; unfold n; lia).
  fold n in Hup. lia.
Qed.

Lemma column_index_bounds_witness :
  let n := Z.of_nat (length (upper (strip (lit "zz")))) in
  26 ^ n <= 25 * 702 + 1
  /\ 25 * 702 <= 26 ^ (n + 1) - 26
  /\ forall other index',
       column_to_index other = Ok index' ->
       (length (upper (strip (lit "zz"))) < length (upper (strip other)))%nat ->
       702 < index'.
Proof. apply (column_index_bounds (lit "zz") 702). reflexivity. Defined.
